(** * ranking-checker.py: the search-position resolution engine

    A shallow embedding of [google_search] and of the script body of
    [src/ranking-checker.py], with the properties the specification states
    about them.

    Modelling conventions.
    - Python [str] values are [string]s (bytes; the case functions act on the
      ASCII letters, so they are [str.lower] and [str.upper] on ASCII text
      only), Python [int] parameters are [Z], list lengths and the positions
      derived from them are [nat].
    - The network is an oracle [api : nat -> Request -> Response] from the
      number of the call (0 for the first [requests.get] of the run) and the
      request to its classified outcome. A response with status 200 is a
      JSON object whose [items], if any, are objects with a text link: on
      any other body lines 60-78, which no handler covers, raise, and such
      bodies are outside the model.
    - [urlparse(link).netloc] is a library function: the search is stated over
      any [netloc : string -> string]; [Urllib.netloc] is the model used on
      concrete links. A link the library refuses is outside the model.
    - The command line is what [parse_args] makes of it: the help, a
      refusal, or the parsed arguments.
    - Every observable effect (network call, [print], [results.append],
      [time.sleep]) is recorded, in order, in a trace. *)

From Stdlib Require Import String Ascii List ZArith Lia Bool Arith.
From Stdlib Require Import Numbers.DecimalString.
Import ListNotations.

Local Open Scope string_scope.
Local Open Scope list_scope.

(** ** Text: the [str] methods the script uses *)

Module Text.

(** [c.lower()] on one ASCII character: 'A'..'Z' go to 'a'..'z'. The
    letters beyond ASCII, which [str.lower] and [str.upper] map as well, are
    left as they are. *)
Definition lower_ascii (c : ascii) : ascii :=
  let n := nat_of_ascii c in
  if ((65 <=? n) && (n <=? 90))%nat then ascii_of_nat (n + 32) else c.

(** [c.upper()] on one ASCII character. *)
Definition upper_ascii (c : ascii) : ascii :=
  let n := nat_of_ascii c in
  if ((97 <=? n) && (n <=? 122))%nat then ascii_of_nat (n - 32) else c.

Fixpoint map_chars (f : ascii -> ascii) (s : string) : string :=
  match s with
  | EmptyString => EmptyString
  | String c s' => String (f c) (map_chars f s')
  end.

(** [s.lower()] and [s.upper()] for ASCII text. *)
Definition lower (s : string) : string := map_chars lower_ascii s.
Definition upper (s : string) : string := map_chars upper_ascii s.

(** [needle in hay]: is [needle] a substring of [hay]? *)
Fixpoint contains (needle hay : string) : bool :=
  if prefix needle hay then true
  else match hay with
       | EmptyString => false
       | String _ hay' => contains needle hay'
       end.

(** [s.replace(' ', '_')]. *)
Definition replace_space (s : string) : string :=
  map_chars (fun c => if Ascii.eqb c " " then "_"%char else c) s.

(** [str(n)] for a non-negative integer. *)
Definition str_nat (n : nat) : string :=
  NilEmpty.string_of_uint (Nat.to_uint n).

(** The mathematical notion [contains] decides. *)
Definition Substring (needle hay : string) : Prop :=
  exists before after, hay = (before ++ needle ++ after)%string.

End Text.

(** ** Urllib: the network location of a link

    A model of [urllib.parse.urlsplit(url).netloc] (CPython 3.12) on text:
    leading blanks and control characters are stripped, tabs and line breaks
    removed, a leading [scheme:] dropped, and the netloc is what follows [//]
    up to the first of [/], [?] and [#]. It keeps the user-info and the port,
    as the library does. The library's [ValueError]s (unbalanced brackets,
    characters that normalise to a delimiter) are outside the model. *)

Module Urllib.

Definition code (c : ascii) : nat := nat_of_ascii c.

Definition is_alpha (c : ascii) : bool :=
  (((65 <=? code c) && (code c <=? 90)) ||
   ((97 <=? code c) && (code c <=? 122)))%nat.

Definition is_digit (c : ascii) : bool :=
  ((48 <=? code c) && (code c <=? 57))%nat.

(** [scheme_chars]: letters, digits, [+], [-] and [.]. *)
Definition scheme_char (c : ascii) : bool :=
  is_alpha c || is_digit c ||
  (code c =? 43)%nat || (code c =? 45)%nat || (code c =? 46)%nat.

(** The delimiters [_splitnetloc] looks for: [/], [?], [#]. *)
Definition is_delim (c : ascii) : bool :=
  ((code c =? 47) || (code c =? 63) || (code c =? 35))%nat.

(** [url.lstrip(_WHATWG_C0_CONTROL_OR_SPACE)]. *)
Fixpoint lstrip_c0 (s : string) : string :=
  match s with
  | String c s' => if (code c <=? 32)%nat then lstrip_c0 s' else s
  | EmptyString => EmptyString
  end.

(** Removal of [_UNSAFE_URL_BYTES_TO_REMOVE]: tab, carriage return, newline. *)
Fixpoint remove_unsafe (s : string) : string :=
  match s with
  | EmptyString => EmptyString
  | String c s' =>
      if ((code c =? 9) || (code c =? 13) || (code c =? 10))%nat
      then remove_unsafe s'
      else String c (remove_unsafe s')
  end.

(** [url[:i], url[i+1:]] for [i = url.find(':')], when there is a colon. *)
Fixpoint split_colon (s : string) : option (string * string) :=
  match s with
  | EmptyString => None
  | String c s' =>
      if (code c =? 58)%nat then Some (EmptyString, s')
      else match split_colon s' with
           | Some (before, after) => Some (String c before, after)
           | None => None
           end
  end.

Fixpoint all_chars (p : ascii -> bool) (s : string) : bool :=
  match s with
  | EmptyString => true
  | String c s' => p c && all_chars p s'
  end.

(** The branch [if i > 0 and url[0].isascii() and url[0].isalpha()]. *)
Definition drop_scheme (url : string) : string :=
  match split_colon url with
  | Some (String c0 before, after) =>
      if is_alpha c0 && all_chars scheme_char (String c0 before)
      then after else url
  | _ => url
  end.

(** [_splitnetloc(url, 2)[0]] once the two slashes are gone. *)
Fixpoint upto_delim (s : string) : string :=
  match s with
  | EmptyString => EmptyString
  | String c s' => if is_delim c then EmptyString else String c (upto_delim s')
  end.

Definition netloc (url : string) : string :=
  match drop_scheme (remove_unsafe (lstrip_c0 url)) with
  | String "/" (String "/" rest) => upto_delim rest
  | _ => EmptyString
  end.

End Urllib.

(** ** Data model *)

(** One element of the [items] array of the API payload: a dictionary whose
    link is text, as the API gives it; [item.get] gives [None] for an absent
    title or snippet. *)
Record Item := {
  i_title : option string;
  i_link : string;
  i_snippet : option string
}.

(** One dictionary of [results]. *)
Record ResultItem := {
  r_title : option string;
  r_link : string;
  r_snippet : option string;
  r_position : nat
}.

(** What [requests.get] is given: the [params] dictionary and [proxies]. *)
Record Request := {
  p_q : string;
  p_start : Z;
  p_num : Z;
  p_gl : string;
  p_key : string;
  p_cx : string;
  proxies : option (string * string)
}.

(** The outcome of one call, as lines 49-62 tell them apart. A parsed body
    is a JSON object, and its [items] are objects with a text link. *)
Inductive Response :=
| Http429                          (* status_code == 429 *)
| Failed (detail : string)         (* requests.get, raise_for_status or json raised *)
| Json (items : option (list Item)). (* parsed body; [None]: no 'items' key *)

(** What the script prints, by the line that prints it. *)
Inductive Message :=
| MsgQuota (api_key : string)                     (* line 52 *)
| MsgError (api_key detail : string)              (* line 57 *)
| MsgNoItems (api_key : string)                   (* line 61 *)
| MsgAllFailed                                    (* line 84 *)
| MsgConfigError                                  (* line 129 *)
| MsgSearching (keyword country : string)         (* line 132 *)
| MsgFound (domain : string) (position : nat)     (* line 143 *)
| MsgLink (found_link : option string)            (* line 144 *)
| MsgNotFound (domain : string) (num_results : Z) (* line 146 *)
| MsgSaved (output_file : string).                (* line 156 *)

(** The observable effects, in the order they happen. *)

Inductive Event :=
| EvCall (params : Request) (response : Response)
| EvPrint (msg : Message)
| EvAppend (r : ResultItem)
| EvSleep (seconds : nat).

Inductive Exn := StopIteration | OSError.

(** The mutable state of [google_search]: the list [results], the cursor of
    [key_cycle], the number of network calls made, and the trace. *)
Record State := {
  results : list ResultItem;
  key_cycle : nat;
  clock : nat;
  trace : list Event
}.

Definition init : State :=
  {| results := []; key_cycle := 0; clock := 0; trace := [] |}.

Definition log (e : Event) (st : State) : State :=
  {| results := results st; key_cycle := key_cycle st; clock := clock st;
     trace := trace st ++ [e] |}.

(** [results.append(r)]. *)
Definition append (r : ResultItem) (st : State) : State :=
  {| results := results st ++ [r]; key_cycle := key_cycle st;
     clock := clock st; trace := trace st ++ [EvAppend r] |}.

(** [next(key_cycle)] followed by [requests.get]. *)
Definition called (params : Request) (response : Response) (st : State) : State :=
  {| results := results st; key_cycle := S (key_cycle st);
     clock := S (clock st); trace := trace st ++ [EvCall params response] |}.

(** What [google_search] does in the end: return its triple, or raise. *)
Inductive Outcome :=
| Returned (results : list ResultItem) (position : option nat)
           (found_link : option string)
| Raised (e : Exn).

(** [range(start, stop, step)] for a positive step. *)
Definition py_range (start stop step : Z) : list Z :=
  map (fun k => (start + step * Z.of_nat k)%Z)
      (seq 0 (Z.to_nat ((stop - start + step - 1) / step))).

(** ** google_search (lines 13-92) *)

Section Search.

(** The library parse [urlparse(link).netloc] and the network. *)
Variable netloc : string -> string.
Variable api : nat -> Request -> Response.

(** The arguments of [google_search]. *)
Variable query : string.
Variables api_keys cxs : list string.
Variable num_results : Z.
Variable proxy : option string.
Variable country : string.
Variable target_domain : option string.

(** Line 75: [target_domain and target_domain.lower() in urlparse(link).netloc.lower()]. *)
Definition domain_matches (link : string) : bool :=
  match target_domain with
  | Some domain =>
      negb (domain =? "")%string &&
      Text.contains (Text.lower domain) (Text.lower (netloc link))
  | None => false
  end.

(** Lines 25-29. *)
Definition proxies_of : option (string * string) :=
  match proxy with
  | Some p =>
      if negb (p =? "")%string
      then Some (("http://" ++ p)%string, ("http://" ++ p)%string)
      else None
  | None => None
  end.

(** Line 31: [itertools.cycle(zip(api_keys, cxs))]; [zip] stops at the shorter
    list. [next_pair k] is what the [k]-th [next(key_cycle)] yields, [None]
    when the cycle is empty and [next] raises [StopIteration]. *)
Definition pairs : list (string * string) := combine api_keys cxs.

Definition next_pair (k : nat) : option (string * string) :=
  nth_error pairs (k mod length pairs).

(** Lines 36-41 and 46-47: the [params] of one attempt. *)
Definition params_of (start num : Z) (api_key cx : string) : Request :=
  {| p_q := query; p_start := start; p_num := num; p_gl := country;
     p_key := api_key; p_cx := cx; proxies := proxies_of |}.

(** Lines 65-72: the dictionary appended for [item]. *)
Definition result_of (item : Item) (position_actual : nat) : ResultItem :=
  {| r_title := i_title item; r_link := i_link item;
     r_snippet := i_snippet item; r_position := position_actual |}.

(** Lines 64-78: the loop over [data['items']]. The second component is
    [Some (position, found_link)] when the loop left through [return]. *)
Fixpoint scan_items (items : list Item) (st : State)
  : State * option (nat * string) :=
  match items with
  | [] => (st, None)
  | item :: rest =>
      let link := i_link item in
      let position_actual := length (results st) + 1 in
      let st' := append (result_of item position_actual) st in
      if domain_matches link then (st', Some (position_actual, link))
      else scan_items rest st'
  end.

(** How the loop over the credentials of one page ends. *)
Inductive PageResult :=
| PFound (st : State) (position : nat) (found_link : string)
| PSuccess (st : State)          (* success = True; break *)
| PFailed (st : State)           (* the loop ran out; success = False *)
| PRaised (st : State) (e : Exn).

(** Lines 44-81: [for attempt in range(len(api_keys))], [n] attempts left. *)
Fixpoint attempts (start num : Z) (n : nat) (st : State) : PageResult :=
  match n with
  | O => PFailed st
  | S n' =>
      match next_pair (key_cycle st) with
      | None => PRaised st StopIteration
      | Some (api_key, cx) =>
          let params := params_of start num api_key cx in
          let response := api (clock st) params in
          let st1 := called params response st in
          match response with
          | Http429 =>
              attempts start num n' (log (EvPrint (MsgQuota api_key)) st1)
          | Failed e =>
              attempts start num n' (log (EvPrint (MsgError api_key e)) st1)
          | Json None =>
              attempts start num n' (log (EvPrint (MsgNoItems api_key)) st1)
          | Json (Some items) =>
              match scan_items items st1 with
              | (st2, Some (position, found_link)) =>
                  PFound st2 position found_link
              | (st2, None) => PSuccess st2
              end
          end
      end
  end.

(** Lines 35-92: the loop over the pages, then the final [return]. *)
Fixpoint pages (starts : list Z) (st : State) : Outcome * State :=
  match starts with
  | [] => (Returned (results st) None None, st)
  | start :: later =>
      let num := Z.min 10 (num_results - Z.of_nat (length (results st))) in
      match attempts start num (length api_keys) st with
      | PFound st' position found_link =>
          (Returned (results st') (Some position) (Some found_link), st')
      | PRaised st' e => (Raised e, st')
      | PFailed st' =>
          let st'' := log (EvPrint MsgAllFailed) st' in
          (Returned (results st'') None None, st'')
      | PSuccess st' =>
          if (Z.of_nat (length (results st')) >=? num_results)%Z
          then (Returned (results st') None None, st')
          else pages later (log (EvSleep 1) st')
      end
  end.

Definition google_search : Outcome * State :=
  pages (py_range 1 (num_results + 1) 10) init.

End Search.

(** ** The script body (lines 95-156) *)

(** The parsed command line. *)
Record Args := {
  arg_keyword : string;
  arg_domain : string;
  arg_country : string;
  arg_results : Z;
  arg_proxy : option string
}.

(** What [parser.parse_args()] comes to: the help is printed and the process
    exits with 0 ([--help]), the command line is refused and the process
    exits with 2, or the arguments are returned. *)
Inductive CommandLine (A : Type) :=
| Help
| Refused
| Parsed (args : A).

Arguments Help {A}.
Arguments Refused {A}.
Arguments Parsed {A} args.

Record Date := { year : nat; month : nat; day : nat }.

(** Decimal digits of [n], padded with zeros on the left to [width]. *)
Fixpoint zeros (k : nat) : string :=
  match k with
  | O => EmptyString
  | S k' => String "0" (zeros k')
  end.

Definition padded (width n : nat) : string :=
  let s := Text.str_nat n in
  (zeros (width - String.length s) ++ s)%string.

(** [strftime("%Y-%m-%d")]. *)
Definition strftime_Ymd (d : Date) : string :=
  (padded 4 (year d) ++ "-" ++ padded 2 (month d) ++ "-" ++ padded 2 (day d))%string.

(** The file system: the text of each file that exists. *)
Definition Files := string -> option string.

Definition text_of (fs : Files) (name : string) : string :=
  match fs name with
  | Some t => t
  | None => EmptyString
  end.

(** What [open(name, "a")] followed by writes of [data] leaves. *)
Definition appended_to (fs : Files) (name data : string) : Files :=
  fun f => if (f =? name)%string then Some (text_of fs name ++ data)%string
           else fs f.

(** What can go wrong with the output file: [open] raises, or the write
    number [k] (from 0) raises after the earlier ones went through. *)
Inductive SinkFault := NoFault | OpenFails | WriteFails (k : nat).

(** The world the script runs in. *)
Record World := {
  network : nat -> Request -> Response;
  today : Date;
  files : Files;
  sink_fault : SinkFault
}.

(** What a run leaves behind. *)
Record Run := {
  exit_code : Z;
  events : list Event;
  files_after : Files
}.

Definition newline : string := String (ascii_of_nat 10) EmptyString.

(** Line 154: the text written for one result. *)
Definition sink_line (fecha_hoy : string) (r : ResultItem) : string :=
  (fecha_hoy ++ "|" ++ r_link r ++ "|" ++ Text.str_nat (r_position r)
   ++ newline)%string.

Definition sink_lines (fecha_hoy : string) (search_results : list ResultItem)
  : list string :=
  map (sink_line fecha_hoy) search_results.

(** Lines 152-154: the [with open(output_file, "a")] block; the boolean tells
    whether it raised. *)
Definition write_results (fault : SinkFault) (fs : Files) (output_file : string)
  (lines : list string) : Files * bool :=
  match fault with
  | NoFault => (appended_to fs output_file (String.concat "" lines), false)
  | OpenFails => (fs, true)
  | WriteFails k =>
      if (k <? length lines)%nat
      then (appended_to fs output_file (String.concat "" (firstn k lines)), true)
      else (appended_to fs output_file (String.concat "" lines), false)
  end.

(** Line 149. *)
Definition output_file_of (keyword country : string) : string :=
  ("seo_results_" ++ Text.replace_space keyword ++ "_" ++ country ++ ".txt")%string.

(** Lines 142-146: [if position:] is false for [None] and for 0. *)
Definition verdict (target_domain : string) (num_results : Z)
  (position : option nat) (found_link : option string) : list Event :=
  match position with
  | Some (S p) =>
      [EvPrint (MsgFound target_domain (S p)); EvPrint (MsgLink found_link)]
  | _ => [EvPrint (MsgNotFound target_domain num_results)]
  end.

Section Script.

Variable netloc : string -> string.

(** The credential lists of lines 112-126. *)
Variables API_KEYS CXS : list string.

(** The script from line 105 on; an exception nobody catches ends the
    process with exit code 1. *)
Definition main (args : Args) (w : World) : Run :=
  if negb (length API_KEYS =? length CXS)%nat then
    {| exit_code := 1; events := [EvPrint MsgConfigError];
       files_after := files w |}
  else
    let banner :=
      EvPrint (MsgSearching (arg_keyword args) (Text.upper (arg_country args))) in
    match google_search netloc (network w) (arg_keyword args) API_KEYS CXS
            (arg_results args) (arg_proxy args) (arg_country args)
            (Some (arg_domain args)) with
    | (Raised _, st) =>
        {| exit_code := 1; events := banner :: trace st;
           files_after := files w |}
    | (Returned search_results position found_link, st) =>
        let said :=
          banner :: trace st
          ++ verdict (arg_domain args) (arg_results args) position found_link in
        let output_file := output_file_of (arg_keyword args) (arg_country args) in
        let fecha_hoy := strftime_Ymd (today w) in
        match write_results (sink_fault w) (files w) output_file
                (sink_lines fecha_hoy search_results) with
        | (fs, true) =>
            {| exit_code := 1; events := said; files_after := fs |}
        | (fs, false) =>
            {| exit_code := 0;
               events := said ++ [EvPrint (MsgSaved output_file)];
               files_after := fs |}
        end
    end.

(** Lines 95-156: the script with its command line (line 103). What argparse
    prints is not among the events followed. *)
Definition script (cl : CommandLine Args) (w : World) : Run :=
  match cl with
  | Help => {| exit_code := 0; events := []; files_after := files w |}
  | Refused => {| exit_code := 2; events := []; files_after := files w |}
  | Parsed args => main args w
  end.

End Script.

(** ** Vocabulary of the properties *)

(** The items [results.append] was called with, in order. *)
Fixpoint appended_items (tr : list Event) : list ResultItem :=
  match tr with
  | [] => []
  | EvAppend r :: tr' => r :: appended_items tr'
  | _ :: tr' => appended_items tr'
  end.

(** The network calls of a trace, in order. *)
Fixpoint calls_of (tr : list Event) : list (Request * Response) :=
  match tr with
  | [] => []
  | EvCall rq resp :: tr' => (rq, resp) :: calls_of tr'
  | _ :: tr' => calls_of tr'
  end.

(** The calls made for the page that starts at [start]. *)
Definition calls_at (start : Z) (tr : list Event) : list (Request * Response) :=
  filter (fun c => (p_start (fst c) =? start)%Z) (calls_of tr).

(** The [Success] of the specification: HTTP 200 with an [items] field. *)
Definition is_success (resp : Response) : bool :=
  match resp with
  | Json (Some _) => true
  | _ => false
  end.

(** The [i]-th item (from 1) carries position [i]. *)
Definition positions_sequential (rs : list ResultItem) : Prop :=
  forall i r, nth_error rs i = Some r -> r_position r = S i.

(** [items] as [results] dictionaries, the first at position [base + 1]. *)
Fixpoint stamp (base : nat) (items : list Item) : list ResultItem :=
  match items with
  | [] => []
  | item :: rest =>
      {| r_title := i_title item; r_link := i_link item;
         r_snippet := i_snippet item; r_position := base + 1 |}
      :: stamp (S base) rest
  end.

(** [st] after the appends of [news], one by one. *)
Definition extend (news : list ResultItem) (st : State) : State :=
  {| results := results st ++ news; key_cycle := key_cycle st;
     clock := clock st; trace := trace st ++ map EvAppend news |}.

(** Every call of the trace asks for a page that starts at one of
    [1, 11, 21, ...] within the budget, with page size
    [min(10, budget - items accumulated before the call)]. *)
Definition paginated (num_results : Z) (tr : list Event) : Prop :=
  forall before rq resp after,
    tr = before ++ EvCall rq resp :: after ->
    In (p_start rq) (py_range 1 (num_results + 1) 10) /\
    p_num rq =
      Z.min 10 (num_results - Z.of_nat (length (appended_items before))).

(** The state the loop over the credentials of a page ends in. *)
Definition state_of (r : PageResult) : State :=
  match r with
  | PFound st _ _ | PSuccess st | PFailed st | PRaised st _ => st
  end.

(** The events an append may come right after: another append, or the
    successful call whose items are being appended. *)
Definition feeds (e : Event) : bool :=
  match e with
  | EvAppend _ => true
  | EvCall _ resp => is_success resp
  | _ => false
  end.

Definition fed (tr : list Event) : Prop :=
  exists earlier e, tr = earlier ++ [e] /\ feeds e = true.

(** No append of the trace comes right after a failed call, a print or a
    sleep. *)
Definition well_placed (tr : list Event) : Prop :=
  forall before r after, tr = before ++ EvAppend r :: after -> fed before.

Section Vocabulary.

Variable netloc : string -> string.
Variable api : nat -> Request -> Response.
Variable num_results : Z.
Variable target_domain : option string.

Definition no_match (link : string) : Prop :=
  domain_matches netloc target_domain link = false.

(** What holds of the state while no match has been found. *)
Record Unmatched (st : State) : Prop := {
  um_results : results st = appended_items (trace st);
  um_positions : positions_sequential (results st);
  um_links : Forall (fun r => no_match (r_link r)) (results st);
  um_calls : paginated num_results (trace st);
  um_appends : well_placed (trace st)
}.

(** What holds of the state [st] the search returns a match in: it comes
    from an unmatched state [st0] by one call whose response holds the
    matching [item] after the non-matching [pre], and by the appends of
    [pre] and [item]; what the response holds after [item] is left out. *)
Definition MatchedAt (st : State) (position : nat) (found_link : string) : Prop :=
  exists st0 rq pre item post,
    Unmatched st0 /\
    Unmatched (called rq (Json (Some (pre ++ item :: post))) st0) /\
    api (clock st0) rq = Json (Some (pre ++ item :: post)) /\
    Forall (fun i => no_match (i_link i)) pre /\
    domain_matches netloc target_domain (i_link item) = true /\
    st = extend (stamp (length (results st0)) (pre ++ [item]))
           (called rq (Json (Some (pre ++ item :: post))) st0) /\
    position = length (results st0) + length pre + 1 /\
    found_link = i_link item.

(** The states a run may end in, by outcome. *)
Definition Sealed (out : Outcome) (st : State) : Prop :=
  match out with
  | Returned rs (Some position) (Some found_link) =>
      rs = results st /\ MatchedAt st position found_link
  | Returned rs None None => rs = results st /\ Unmatched st
  | Returned _ _ _ => False
  | Raised _ => Unmatched st
  end.

End Vocabulary.

(** Does the [with open(...)] block raise, given the number of lines? *)
Definition sink_raises (fault : SinkFault) (n_lines : nat) : bool :=
  match fault with
  | NoFault => false
  | OpenFails => true
  | WriteFails k => (k <? n_lines)%nat
  end.

(** A line of the log without its date. *)
Definition line_body (r : ResultItem) : string :=
  ("|" ++ r_link r ++ "|" ++ Text.str_nat (r_position r) ++ newline)%string.

(** The same world with another behaviour of the output file. *)
Definition with_fault (fault : SinkFault) (w : World) : World :=
  {| network := network w; today := today w; files := files w;
     sink_fault := fault |}.

(** The world of a later run: the files the earlier run left, another day. *)
Definition later_run (fs : Files) (d : Date) (w : World) : World :=
  {| network := network w; today := d; files := fs;
     sink_fault := sink_fault w |}.

(** The number of line breaks of a text. *)
Fixpoint count_lines (text : string) : nat :=
  match text with
  | EmptyString => 0
  | String c text' =>
      (if Ascii.eqb c (ascii_of_nat 10) then 1 else 0) + count_lines text'
  end.

(** ** seo_analyzer.py: the page analysis

    The browser ([fetch_page_selenium]) and the PageSpeed API call inside
    [get_pagespeed_insights] are oracles numbered by call; the parse of the
    HTML by BeautifulSoup, the two [urllib] functions of [is_url_friendly]
    and the outcome of [create_excel_report] are parameters. The
    configuration is a list of sites whose URL is text and whose keywords
    are a list of texts, a text or [null]. The exceptions nothing catches
    are followed: [IndexError] on an empty keyword list, [ValueError] when
    [urlparse] refuses a URL, and a report that cannot be written. *)

Module Analyzer.

(** Lines 108-112; the callers pass text. *)
Definition check_keyword_in_text (text keyword : string) : bool :=
  if (text =? "")%string then false
  else Text.contains (Text.lower keyword) (Text.lower text).

(** What [analyze_page] reads off the parsed page (lines 212-228): the text
    of the title tag if there is one, the [content] of the description meta
    tag if there is one, the text of every [h1], and [img.get('alt')] of
    every [img]. *)
Record Page := {
  title_tag : option string;
  meta_desc_tag : option string;
  h1_tags : list string;
  img_alts : list (option string)
}.

Inductive Strategy := Mobile | Desktop.

(** The dictionary [get_pagespeed_insights] returns. *)
Record Metrics := {
  accessibility : option Z;
  performance : option Z
}.

Definition no_metrics : Metrics :=
  {| accessibility := None; performance := None |}.

(** What the call of lines 142-156 comes to: an exception, or the two
    scores, each absent or already converted to 0-100. *)
Inductive SpeedResponse :=
| SpeedFailed
| SpeedScores (m : Metrics).

(** The dictionary [analyze_page] returns. *)
Record Row := {
  row_url : string;                    (* 'URL' *)
  row_keyword : string;                (* 'Keyword' *)
  row_title : string;                  (* 'Título' *)
  keyword_in_title : bool;             (* 'Keyword en Título' *)
  row_meta : string;                   (* 'Meta Descripción' *)
  keyword_in_meta : bool;              (* 'Keyword en Meta Descripción' *)
  row_h1 : string;                     (* 'H1' *)
  keyword_in_h1 : bool;                (* 'Keyword en H1' *)
  row_alt : string;                    (* 'Alt Text Imágenes' *)
  keyword_in_alt : bool;               (* 'Keyword en Alt Text' *)
  keyword_in_alt_ratio : string;       (* 'Keyword en Alt Ratio' *)
  images_with_keyword : nat;           (* 'Alt Images With Keyword' *)
  total_images_with_alt : nat;         (* 'Alt Total Images' *)
  url_friendly : bool;                 (* 'URL Amigable' *)
  mobile_accessibility : option Z;     (* 'Accesibilidad(Mobile)' *)
  mobile_performance : option Z;       (* 'PageSpeed(Mobile)' *)
  desktop_accessibility : option Z;    (* 'Accesibilidad(Web)' *)
  desktop_performance : option Z       (* 'PageSpeed(Web)' *)
}.

Inductive AEvent :=
| Fetched (url : string) (html : option string)
| Measured (url : string) (strategy : Strategy) (key : option string)
           (retry : bool) (resp : SpeedResponse)
| Slept (seconds : nat)
| RetryNotice                                      (* line 250 *)
| KeywordSummary (keyword : string) (passed : nat) (* line 517 *)
| SiteTotal (total_passed total_checks : nat)      (* line 520 *)
| ConfigError (config_file : string)               (* lines 44 and 47 *)
| Report (output_file : string) (rows : list Row). (* line 526 *)

(** The exceptions of a run that nothing catches. *)
Inductive AExn :=
| IndexError    (* keywords_list[0] on an empty list, line 482 *)
| ValueError.   (* urlparse(url) on a URL it refuses, line 53 *)

(** What a call that can raise comes to. *)
Inductive Result (A : Type) :=
| Done (a : A)
| Died (e : AExn).

Arguments Done {A} a.
Arguments Died {A} e.

(** The state of a run: the pages fetched and the PageSpeed calls made so
    far, and the events in order. *)
Record AState := {
  fetched : nat;
  measured : nat;
  alog : list AEvent
}.

Definition astart : AState := {| fetched := 0; measured := 0; alog := [] |}.

Definition note (e : AEvent) (st : AState) : AState :=
  {| fetched := fetched st; measured := measured st; alog := alog st ++ [e] |}.

(** A value of the site configuration under [keywords] or [Keyword]. *)
Inductive JValue :=
| JList (l : list string)
| JText (s : string)
| JNull.

(** One entry of the configuration: the URL and the two optional keys. *)
Record Site := {
  site_url : string;
  site_keywords : option JValue;   (* 'keywords' *)
  site_keyword : option JValue     (* 'Keyword' *)
}.


(** The alternatives with text: [a if a else b]. *)
Definition or_else (a b : string) : string :=
  if (a =? "")%string then b else a.

(** [api_key] when it is given and not empty, as [if api_key:] reads it. *)
Definition given (api_key : option string) : option string :=
  match api_key with
  | Some k => if (k =? "")%string then None else Some k
  | None => None
  end.

Section Analysis.

(** [fetch_page_selenium]: the HTML of the [n]-th fetch, [None] on an error. *)
Variable browser : nat -> string -> option string.
(** The parse of the HTML. *)
Variable soup : string -> Page.
(** The PageSpeed API: the outcome of the [n]-th call. *)
Variable pagespeed_api :
  nat -> string -> Strategy -> option string -> SpeedResponse.
(** [urlparse(url).query], [None] when [urlparse] raises [ValueError], and
    [parse_qs]. *)
Variable query_of : string -> option string.
Variable parse_qs : string -> list (string * list string).
(** [create_excel_report]: does it return ([true]) or raise? *)
Variable writer : string -> list Row -> bool.

(** Lines 51-55; [None] when [urlparse] raises. *)
Definition is_url_friendly (url : string) : option bool :=
  match query_of url with
  | Some query => Some (length (parse_qs query) =? 0)%nat
  | None => None
  end.

(** Lines 58-99, as the caller sees it. *)
Definition fetch_page_selenium (url : string) (st : AState)
  : option string * AState :=
  let html := browser (fetched st) url in
  (html,
   {| fetched := S (fetched st); measured := measured st;
      alog := alog st ++ [Fetched url html] |}).

(** The HTML the next analysis works on: none when the fetch fails or
    gives nothing (line 187). *)
Definition page_of (url : string) (st : AState) : option string :=
  match browser (fetched st) url with
  | Some text => if (text =? "")%string then None else Some text
  | None => None
  end.

(** Lines 115-173: on success the pause is 3 seconds without an API key and
    1 with one; an exception gives the empty metrics and no pause. *)
Definition get_pagespeed_insights (url : string) (strategy : Strategy)
  (api_key : option string) (retry : bool) (st : AState) : Metrics * AState :=
  let resp := pagespeed_api (measured st) url strategy (given api_key) in
  let st1 :=
    {| fetched := fetched st; measured := S (measured st);
       alog := alog st ++ [Measured url strategy (given api_key) retry resp] |}
  in
  match resp with
  | SpeedScores m =>
      (m, note (Slept (match given api_key with None => 3 | Some _ => 1 end))
            st1)
  | SpeedFailed => (no_metrics, st1)
  end.

(** The alt texts that count: [img.get('alt')] given and not empty. *)
Definition alt_texts_of (page : Page) : list string :=
  flat_map (fun alt => match alt with
                       | Some a => if (a =? "")%string then [] else [a]
                       | None => []
                       end) (img_alts page).

(** Lines 188-207: the dictionary is built around [is_url_friendly(url)]. *)
Definition error_row (url keyword : string) : Result Row :=
  match is_url_friendly url with
  | Some friendly =>
      Done {| row_url := url; row_keyword := keyword;
              row_title := "ERROR"; keyword_in_title := false;
              row_meta := "ERROR"; keyword_in_meta := false;
              row_h1 := "ERROR"; keyword_in_h1 := false;
              row_alt := "ERROR"; keyword_in_alt := false;
              keyword_in_alt_ratio := "0 de 0";
              images_with_keyword := 0; total_images_with_alt := 0;
              url_friendly := friendly;
              mobile_accessibility := None; mobile_performance := None;
              desktop_accessibility := None; desktop_performance := None |}
  | None => Died ValueError
  end.

(** Lines 240-251. *)
Definition page_metrics (url : string) (include_pagespeed : bool)
  (api_key : option string) (st : AState) : (Metrics * Metrics) * AState :=
  if include_pagespeed then
    let (mobile_metrics, st1) :=
      get_pagespeed_insights url Mobile api_key false st in
    let (desktop_metrics, st2) :=
      get_pagespeed_insights url Desktop api_key false st1 in
    match accessibility desktop_metrics, performance desktop_metrics with
    | Some _, Some _ => ((mobile_metrics, desktop_metrics), st2)
    | _, _ =>
        let (desktop_again, st3) :=
          get_pagespeed_insights url Desktop api_key true
            (note RetryNotice st2) in
        ((mobile_metrics, desktop_again), st3)
    end
  else ((no_metrics, no_metrics), st).

(** Lines 176-272. [is_url_friendly] (line 237) comes after the parse and
    before the PageSpeed calls. *)
Definition analyze_page (url keyword : string) (include_pagespeed : bool)
  (api_key : option string) (st : AState) : Result Row * AState :=
  let (html, st1) := fetch_page_selenium url st in
  match html with
  | None => (error_row url keyword, st1)
  | Some text =>
      if (text =? "")%string then (error_row url keyword, st1)
      else
        let page := soup text in
        let title := match title_tag page with Some t => t | None => "" end in
        let meta_desc :=
          match meta_desc_tag page with Some m => m | None => "" end in
        let h1_text := String.concat " | " (h1_tags page) in
        let alt_texts := alt_texts_of page in
        let alt_text_combined := String.concat " | " alt_texts in
        let total := length alt_texts in
        let with_keyword :=
          length (filter (fun alt => check_keyword_in_text alt keyword)
                    alt_texts) in
        match is_url_friendly url with
        | None => (Died ValueError, st1)
        | Some friendly =>
            let '(mobile_metrics, desktop_metrics, st2) :=
              page_metrics url include_pagespeed api_key st1 in
            (Done
               {| row_url := url; row_keyword := keyword;
                  row_title := title;
                  keyword_in_title := check_keyword_in_text title keyword;
                  row_meta := meta_desc;
                  keyword_in_meta := check_keyword_in_text meta_desc keyword;
                  row_h1 := or_else h1_text "No H1 encontrado";
                  keyword_in_h1 := check_keyword_in_text h1_text keyword;
                  row_alt := or_else alt_text_combined "Sin alt text";
                  keyword_in_alt :=
                    existsb (fun alt => check_keyword_in_text alt keyword)
                      alt_texts;
                  keyword_in_alt_ratio :=
                    if (0 <? total)%nat
                    then (Text.str_nat with_keyword ++ " de "
                          ++ Text.str_nat total)%string
                    else "0 de 0";
                  images_with_keyword := with_keyword;
                  total_images_with_alt := total;
                  url_friendly := friendly;
                  mobile_accessibility := accessibility mobile_metrics;
                  mobile_performance := performance mobile_metrics;
                  desktop_accessibility := accessibility desktop_metrics;
                  desktop_performance := performance desktop_metrics |}, st2)
        end
  end.

(** Lines 468-474. *)
Definition keywords_list_of (site : Site) : list string :=
  let keywords_raw :=
    match site_keywords site with
    | Some v => v
    | None => match site_keyword site with Some v => v | None => JNull end
    end in
  match keywords_raw with
  | JList l => l
  | JText k => if (k =? "")%string then [""%string] else [k]
  | JNull => [""%string]
  end.

(** Lines 493-496: the metrics of [first_result] written into [result]. *)
Definition with_metrics_of (first_result result : Row) : Row :=
  {| row_url := row_url result; row_keyword := row_keyword result;
     row_title := row_title result;
     keyword_in_title := keyword_in_title result;
     row_meta := row_meta result; keyword_in_meta := keyword_in_meta result;
     row_h1 := row_h1 result; keyword_in_h1 := keyword_in_h1 result;
     row_alt := row_alt result; keyword_in_alt := keyword_in_alt result;
     keyword_in_alt_ratio := keyword_in_alt_ratio result;
     images_with_keyword := images_with_keyword result;
     total_images_with_alt := total_images_with_alt result;
     url_friendly := url_friendly result;
     mobile_accessibility := mobile_accessibility first_result;
     mobile_performance := mobile_performance first_result;
     desktop_accessibility := desktop_accessibility first_result;
     desktop_performance := desktop_performance first_result |}.

(** Lines 485-498: the loop over the keywords of a site. *)
Fixpoint keyword_rows (url first : string) (first_result : Row)
  (api_key : option string) (keywords : list string) (results : list Row)
  (st : AState) : Result (list Row) * AState :=
  match keywords with
  | [] => (Done results, st)
  | keyword :: rest =>
      if (keyword =? first)%string then
        keyword_rows url first first_result api_key rest
          (results ++ [first_result]) st
      else
        match analyze_page url keyword false api_key st with
        | (Done result, st1) =>
            keyword_rows url first first_result api_key rest
              (results ++ [with_metrics_of first_result result]) st1
        | (Died e, st1) => (Died e, st1)
        end
  end.

(** Lines 507-514: the checks of a row that passed. *)
Definition passed_checks (r : Row) : nat :=
  list_sum (map (fun b : bool => if b then 1 else 0)
              [keyword_in_title r; keyword_in_meta r; keyword_in_h1 r;
               keyword_in_alt r; url_friendly r]).

(** Lines 503-518: the summary of a site over all the rows so far. *)
Fixpoint summary (url : string) (keywords : list string) (results : list Row)
  (total_checks total_passed : nat) (st : AState) : (nat * nat) * AState :=
  match keywords with
  | [] => ((total_checks, total_passed), st)
  | keyword :: rest =>
      match find (fun r => (row_url r =? url)%string
                           && (row_keyword r =? keyword)%string) results with
      | Some r =>
          summary url rest results (total_checks + 5)
            (total_passed + passed_checks r)
            (note (KeywordSummary keyword (passed_checks r)) st)
      | None => summary url rest results total_checks total_passed st
      end
  end.

(** Lines 464-520 for one site; [keywords_list[0]] raises [IndexError] on
    the empty list. *)
Definition analyze_site (include_pagespeed : bool) (api_key : option string)
  (site : Site) (results : list Row) (st : AState)
  : Result (list Row) * AState :=
  let url := site_url site in
  match keywords_list_of site with
  | [] => (Died IndexError, st)
  | first :: _ =>
      match analyze_page url first include_pagespeed api_key st with
      | (Died e, st1) => (Died e, st1)
      | (Done first_result, st1) =>
          match keyword_rows url first first_result api_key
                  (keywords_list_of site) results st1 with
          | (Died e, st2) => (Died e, st2)
          | (Done results1, st2) =>
              let '(total_checks, total_passed, st3) :=
                summary url (keywords_list_of site) results1 0 0 st2 in
              (Done results1, note (SiteTotal total_passed total_checks) st3)
          end
      end
  end.


(** Lines 463-520: the loop over the configuration. *)
Fixpoint analyze_sites (include_pagespeed : bool) (api_key : option string)
  (config : list Site) (results : list Row) (st : AState)
  : Result (list Row) * AState :=
  match config with
  | [] => (Done results, st)
  | site :: rest =>
      match analyze_site include_pagespeed api_key site results st with
      | (Done results1, st1) =>
          analyze_sites include_pagespeed api_key rest results1 st1
      | (Died e, st1) => (Died e, st1)
      end
  end.

(** The command line of the analyzer. *)
Record AArgs := {
  config_file : string;
  no_pagespeed : bool;
  arg_api_key : option string
}.

(** Line 441: [args.api_key or load_api_key()]. *)
Definition api_key_of (args : AArgs) (env_key : option string)
  : option string :=
  match given (arg_api_key args) with
  | Some k => Some k
  | None => env_key
  end.

(** What [load_config] ends in (lines 38-48): the two errors it reports
    before [sys.exit(1)], any other exception of [open] or [json.load], or
    the configuration, a list of sites. *)
Inductive ConfigLoad :=
| NotFound
| NotJson
| Unreadable
| Loaded (config : list Site).

(** Line 525. *)
Definition report_file (today : Date) : string :=
  ("seo_report_" ++ strftime_Ymd today ++ ".xlsx")%string.

(** Lines 438-530: [main] from the point where [parse_args] (line 436) has
    returned [args]; the exit code and the final state. [env_key] is what
    [load_api_key] gives; an exception nothing catches ends the process
    with 1. *)
Definition main (args : AArgs) (env_key : option string) (load : ConfigLoad)
  (today : Date) : Z * AState :=
  let include_pagespeed := negb (no_pagespeed args) in
  let api_key := api_key_of args env_key in
  match load with
  | Loaded config =>
      match analyze_sites include_pagespeed api_key config [] astart with
      | (Done results, st) =>
          if writer (report_file today) results
          then (0%Z, note (Report (report_file today) results) st)
          else (1%Z, st)
      | (Died e, st) => (1%Z, st)
      end
  | Unreadable => (1%Z, astart)
  | NotFound | NotJson => (1%Z, note (ConfigError (config_file args)) astart)
  end.

(** Lines 401-533: [main] with its command line (line 436). *)
Definition script (cl : CommandLine AArgs) (env_key : option string)
  (load : ConfigLoad) (today : Date) : Z * AState :=
  match cl with
  | Help => (0%Z, astart)
  | Refused => (2%Z, astart)
  | Parsed args => main args env_key load today
  end.

End Analysis.

(** The events of the analysis itself: all but the two that [load_config]
    and the end of [main] give rise to. *)
Definition working (e : AEvent) : Prop :=
  match e with
  | Report _ _ | ConfigError _ => False
  | _ => True
  end.

(** [st'] continues [st]: the log has grown by events of the analysis. *)
Definition continues (st st' : AState) : Prop :=
  exists added, alog st' = alog st ++ added /\ Forall working added.


End Analyzer.

(** ** Vocabulary of the further properties *)

(** The pauses of a trace. *)
Fixpoint sleeps (tr : list Event) : nat :=
  match tr with
  | [] => 0
  | EvSleep _ :: tr' => S (sleeps tr')
  | _ :: tr' => sleeps tr'
  end.

(** The calls of a trace that succeeded. *)
Definition successes (tr : list Event) : nat :=
  length (filter (fun c => is_success (snd c)) (calls_of tr)).

(** The events [google_search] can cause: calls, appends, pauses of one
    second and the four messages of lines 52, 57, 61 and 84. *)
Definition search_event (e : Event) : Prop :=
  match e with
  | EvCall _ _ | EvAppend _ => True
  | EvSleep seconds => seconds = 1
  | EvPrint (MsgQuota _ | MsgError _ _ | MsgNoItems _ | MsgAllFailed) => True
  | EvPrint _ => False
  end.

(** Text of ASCII characters only: the text on which [Text.lower] and
    [Text.upper] are [str.lower] and [str.upper]. *)
Fixpoint ascii_text (s : string) : bool :=
  match s with
  | EmptyString => true
  | String c s' => (nat_of_ascii c <? 128)%nat && ascii_text s'
  end.

(** The two verdicts of lines 143 and 146. *)
Definition is_verdict (e : Event) : bool :=
  match e with
  | EvPrint (MsgFound _ _) | EvPrint (MsgNotFound _ _) => true
  | _ => false
  end.

Section Tracking.

Variable api : nat -> Request -> Response.
Variable query : string.
Variables api_keys cxs : list string.
Variable proxy : option string.
Variable country : string.

(** What the [k]-th call of a run (from 0) looks like. *)
Definition call_in_turn (k : nat) (rq : Request) (resp : Response) : Prop :=
  nth_error (pairs api_keys cxs) (k mod length (pairs api_keys cxs))
  = Some (p_key rq, p_cx rq) /\
  resp = api k rq /\
  p_q rq = query /\ p_gl rq = country /\ proxies rq = proxies_of proxy.

(** The cursor and the call counter count the calls of the trace, every
    call is made in turn, and every event is one of the search. *)
Record Tracked (st : State) : Prop := {
  tk_cursor : key_cycle st = length (calls_of (trace st));
  tk_clock : clock st = length (calls_of (trace st));
  tk_calls : forall k rq resp,
      nth_error (calls_of (trace st)) k = Some (rq, resp) ->
      call_in_turn k rq resp;
  tk_events : Forall search_event (trace st)
}.

End Tracking.

(** ** Sample runs

    Concrete inputs on which the theorems below are exercised. *)

Module Sample.

Definition item_at (link : string) : Item :=
  {| i_title := Some "a title"%string; i_link := link; i_snippet := None |}.

(** A first page with the target at index 3 and once more at index 4. *)
Definition page : list Item :=
  [ item_at "https://a.example/1"; item_at "https://b.example/2";
    item_at "https://c.example/3"; item_at "https://i.IMGUR.com/x";
    item_at "https://imgur.com/y" ].

(** The first key is over quota; the second one answers page 1. *)
Definition two_keys (i : nat) (rq : Request) : Response :=
  if (p_key rq =? "K1")%string then Http429
  else if (p_start rq =? 1)%Z then Json (Some page)
       else Failed "no such page".

(** Every key is over quota. *)
Definition over_quota (i : nat) (rq : Request) : Response := Http429.

(** Every call brings as many items as asked for, none on the target. *)
Definition generous (i : nat) (rq : Request) : Response :=
  Json (Some (repeat (item_at "https://example.org/") (Z.to_nat (p_num rq)))).

Definition keys : list string := ["K1"; "K2"]%string.
Definition ids : list string := ["C1"; "C2"]%string.

Definition args : Args :=
  {| arg_keyword := "free image hosting"; arg_domain := "imgur.com";
     arg_country := "us"; arg_results := 20; arg_proxy := None |}.

Definition world : World :=
  {| network := two_keys;
     today := {| year := 2026; month := 11; day := 3 |};
     files := fun _ => None;
     sink_fault := NoFault |}.

Definition file : string := "seo_results_free_image_hosting_us.txt".

(** The search of [args] in [world]. *)
Definition search : Outcome * State :=
  google_search Urllib.netloc two_keys "free image hosting" keys ids 20 None
    "us" (Some "imgur.com"%string).

(** The item it stops at, and the trace before its append. *)
Definition hit : ResultItem :=
  {| r_title := Some "a title"%string; r_link := "https://i.IMGUR.com/x";
     r_snippet := None; r_position := 4 |}.

Definition before_hit : list Event := firstn 6 (trace (snd search)).


End Sample.

(** ** Further sample runs *)

Module Cases.

(** The second request of [Sample.search]. *)
Definition second_request : Request :=
  {| p_q := "free image hosting"; p_start := 1; p_num := 10; p_gl := "us";
     p_key := "K2"; p_cx := "C2"; proxies := None |}.

(** Every call answers with the target in the first item. *)
Definition first_hit (i : nat) (rq : Request) : Response :=
  Json (Some [Sample.item_at "https://imgur.com/"%string;
              Sample.item_at "https://a.example/"%string]).

(** The search of [Sample.args] without a target domain, for 3 results. *)
Definition aimless : Outcome * State :=
  google_search Urllib.netloc Sample.two_keys "free image hosting"
    Sample.keys Sample.ids 3 None "us" None.

(** A search for 3 results that finds nothing. *)
Definition short : Outcome * State :=
  google_search Urllib.netloc Sample.generous "free image hosting"
    Sample.keys Sample.ids 3 None "us" (Some "imgur.com"%string).

(** A page with a title, two headings and three images, one without alt. *)
Definition page : Analyzer.Page :=
  {| Analyzer.title_tag := Some "SEO audit tools"%string;
     Analyzer.meta_desc_tag := None;
     Analyzer.h1_tags := ["Audit"; "Tools"]%string;
     Analyzer.img_alts := [Some "seo chart"; None; Some "logo"]%string |}.

Definition browser (n : nat) (url : string) : option string :=
  if (url =? "https://down.example/")%string then None
  else Some "<html>"%string.

Definition soup (html : string) : Analyzer.Page := page.

(** The desktop measurement lacks a score the first time it is asked for. *)
Definition pagespeed_api (n : nat) (url : string)
  (strategy : Analyzer.Strategy) (key : option string)
  : Analyzer.SpeedResponse :=
  match strategy, n with
  | Analyzer.Desktop, 1 =>
      Analyzer.SpeedScores
        {| Analyzer.accessibility := Some 90%Z; Analyzer.performance := None |}
  | _, _ =>
      Analyzer.SpeedScores
        {| Analyzer.accessibility := Some 90%Z;
           Analyzer.performance := Some 70%Z |}
  end.

(** [urlparse] refuses the URL with the unbalanced bracket. *)
Definition query_of (url : string) : option string :=
  if (url =? "http://[shop.example/")%string then None else Some EmptyString.
Definition parse_qs (query : string) : list (string * list string) := [].

(** The report is always written. *)
Definition writer (output_file : string) (rows : list Analyzer.Row) : bool :=
  true.


Definition site : Analyzer.Site :=
  {| Analyzer.site_url := "https://shop.example/";
     Analyzer.site_keywords := Some (Analyzer.JList ["seo"; "audit"; "seo"]%string);
     Analyzer.site_keyword := None |}.



End Cases.

(** * Facts *)

(** ** Text *)

Module TextFacts.
Import Text.

Lemma prefix_app (s t : string) : prefix s (s ++ t)%string = true.
Proof.
  induction s as [|c s IH]; simpl.
  - destruct t; reflexivity.
  - destruct (ascii_dec c c) as [_|n]; [exact IH | now destruct n].
Qed.

Lemma prefix_split (s h : string) :
  prefix s h = true -> exists t, h = (s ++ t)%string.
Proof.
  revert h; induction s as [|c s IH]; intros h H.
  - now exists h.
  - destruct h as [|d h]; simpl in H; [discriminate|].
    destruct (ascii_dec c d) as [->|]; [|discriminate].
    destruct (IH _ H) as [t ->]. now exists t.
Qed.

Lemma contains_eq (needle hay : string) :
  contains needle hay =
  if prefix needle hay then true
  else match hay with
       | EmptyString => false
       | String _ hay' => contains needle hay'
       end.
Proof. destruct hay; reflexivity. Qed.

Lemma contains_Substring (needle hay : string) :
  contains needle hay = true <-> Substring needle hay.
Proof.
  split.
  - induction hay as [|c hay IH]; rewrite contains_eq;
      destruct (prefix needle _) eqn:P; intros H;
      try (destruct (prefix_split _ _ P) as [t E]; exists "", t; exact E).
    + discriminate.
    + destruct (IH H) as (b & a & ->). exists (String c b), a. reflexivity.
  - intros (b & a & ->). induction b as [|c b IH]; rewrite contains_eq.
    + change ("" ++ needle ++ a)%string with (needle ++ a)%string.
      now rewrite prefix_app.
    + change (String c b ++ needle ++ a)%string
        with (String c (b ++ needle ++ a)%string).
      destruct (prefix needle _); [reflexivity | exact IH].
Qed.

Lemma append_assoc (a b c : string) :
  ((a ++ b) ++ c = a ++ (b ++ c))%string.
Proof. induction a as [|x a IH]; simpl; [reflexivity | now rewrite IH]. Qed.

Lemma append_nil_r (a : string) : (a ++ "")%string = a.
Proof. induction a as [|x a IH]; simpl; [reflexivity | now rewrite IH]. Qed.

End TextFacts.

(** ** Sanity checks of the library models *)

Example netloc_https :
  Urllib.netloc "https://www.imgur.com/gallery?x=1#top" = "www.imgur.com".
Proof. reflexivity. Qed.

Example netloc_userinfo_port :
  Urllib.netloc "HTTP://user@Imgur.com:8080" = "user@Imgur.com:8080".
Proof. reflexivity. Qed.

Example netloc_relative : Urllib.netloc "imgur.com/a/b" = "".
Proof. reflexivity. Qed.

Example range_50 : py_range 1 51 10 = [1; 11; 21; 31; 41]%Z.
Proof. reflexivity. Qed.

Example range_25 : py_range 1 26 10 = [1; 11; 21]%Z.
Proof. reflexivity. Qed.

Example range_neg : py_range 1 (-3) 10 = [].
Proof. reflexivity. Qed.

Example str_nat_12 : Text.str_nat 12 = "12".
Proof. reflexivity. Qed.

Example strftime_example :
  strftime_Ymd {| year := 2026; month := 1; day := 3 |} = "2026-01-03".
Proof. reflexivity. Qed.

Example output_file_example :
  output_file_of "free image hosting" "us"
  = "seo_results_free_image_hosting_us.txt".
Proof. reflexivity. Qed.

(** ** Traces and states *)

Lemma split_snoc {A} (t before after : list A) (e x : A) :
  t ++ [e] = before ++ x :: after ->
  (after = [] /\ x = e /\ before = t) \/
  (exists after', after = after' ++ [e] /\ t = before ++ x :: after').
Proof.
  revert t. induction before as [|b before IH]; intros [|y t] E; simpl in E.
  - inversion E. now left.
  - inversion E. right. now exists t.
  - inversion E as [[Eb E']]. now destruct before.
  - inversion E as [[Eb E']]. destruct (IH _ E') as [(-> & -> & ->)|(l & -> & ->)].
    + now left.
    + right. now exists l.
Qed.

Lemma appended_items_app (a b : list Event) :
  appended_items (a ++ b) = appended_items a ++ appended_items b.
Proof.
  induction a as [|[] a IH]; simpl; rewrite ?IH; reflexivity.
Qed.

Lemma appended_items_map (news : list ResultItem) :
  appended_items (map EvAppend news) = news.
Proof. induction news; simpl; congruence. Qed.

Lemma calls_of_app (a b : list Event) :
  calls_of (a ++ b) = calls_of a ++ calls_of b.
Proof.
  induction a as [|[] a IH]; simpl; rewrite ?IH; reflexivity.
Qed.

Lemma calls_of_map (news : list ResultItem) :
  calls_of (map EvAppend news) = [].
Proof. induction news; simpl; auto. Qed.

Lemma calls_at_app (s : Z) (a b : list Event) :
  calls_at s (a ++ b) = calls_at s a ++ calls_at s b.
Proof. unfold calls_at. now rewrite calls_of_app, filter_app. Qed.

Lemma appended_items_In (before after : list Event) (r : ResultItem) :
  In r (appended_items (before ++ EvAppend r :: after)).
Proof. rewrite appended_items_app. apply in_or_app. right. now left. Qed.

Lemma extend_nil (st : State) : extend [] st = st.
Proof. destruct st. unfold extend. simpl. now rewrite !app_nil_r. Qed.

Lemma extend_cons (r : ResultItem) (news : list ResultItem) (st : State) :
  extend (r :: news) st = extend news (append r st).
Proof. unfold extend, append. simpl. now rewrite <- !app_assoc. Qed.

Lemma stamp_app (base : nat) (a b : list Item) :
  stamp base (a ++ b) = stamp base a ++ stamp (base + length a) b.
Proof.
  revert base. induction a as [|x a IH]; intros base; simpl.
  - now rewrite Nat.add_0_r.
  - rewrite IH. do 3 f_equal. lia.
Qed.

Lemma stamp_length (base : nat) (items : list Item) :
  length (stamp base items) = length items.
Proof. revert base. induction items; intros; simpl; auto. Qed.

Lemma stamp_links (base : nat) (items : list Item) :
  map r_link (stamp base items) = map i_link items.
Proof. revert base. induction items; intros; simpl; f_equal; auto. Qed.

(** ** Sequential positions *)

Lemma positions_sequential_nil : positions_sequential [].
Proof. intros [|i] r H; discriminate. Qed.

Lemma positions_sequential_prefix (a b : list ResultItem) :
  positions_sequential (a ++ b) -> positions_sequential a.
Proof.
  intros H i r E. apply H. rewrite nth_error_app1; [exact E|].
  apply nth_error_Some. congruence.
Qed.

Lemma positions_sequential_stamp (rs : list ResultItem) (items : list Item) :
  positions_sequential rs ->
  positions_sequential (rs ++ stamp (length rs) items).
Proof.
  revert rs. induction items as [|x items IH]; intros rs H.
  - simpl. now rewrite app_nil_r.
  - simpl.
    change (?h :: stamp (S (length rs)) items)
      with ([h] ++ stamp (S (length rs)) items).
    rewrite app_assoc.
    replace (S (length rs)) with (length (rs ++ [result_of x (length rs + 1)]))
      by (rewrite length_app; simpl; lia).
    apply IH. intros i r E.
    destruct (Nat.lt_ge_cases i (length rs)) as [Hi|Hi].
    + rewrite nth_error_app1 in E by exact Hi. now apply H.
    + rewrite nth_error_app2 in E by exact Hi.
      destruct (i - length rs) as [|k] eqn:K; simpl in E.
      * inversion E. simpl. lia.
      * now destruct k.
Qed.

Lemma nonempty_length {A} (l : list A) :
  l <> [] -> exists n, length l = S n.
Proof. destruct l as [|a l]; [congruence | intros _; now exists (length l)]. Qed.

(** ** Pagination of the calls *)


Lemma paginated_nil (budget : Z) : paginated budget [].
Proof. intros [|? ?] ? ? ? E; discriminate. Qed.

Lemma paginated_quiet (budget : Z) (t quiet : list Event) :
  paginated budget t -> calls_of quiet = [] -> paginated budget (t ++ quiet).
Proof.
  intros H Q before rq resp after E.
  apply app_eq_app in E as [l [[Et El]|[Eb Eq]]].
  - destruct l as [|e l].
    + simpl in El. subst quiet. discriminate.
    + inversion El; subst. eapply H. reflexivity.
  - subst quiet. rewrite calls_of_app in Q. simpl in Q.
    now apply app_eq_nil in Q as [_ Q].
Qed.

Lemma paginated_call (budget : Z) (t : list Event) (rq : Request)
  (resp : Response) :
  paginated budget t ->
  In (p_start rq) (py_range 1 (budget + 1) 10) ->
  p_num rq = Z.min 10 (budget - Z.of_nat (length (appended_items t))) ->
  paginated budget (t ++ [EvCall rq resp]).
Proof.
  intros H Hs Hn before rq' resp' after E.
  apply split_snoc in E as [(-> & E & ->)|(l & -> & ->)].
  - inversion E; subst. auto.
  - eapply H. reflexivity.
Qed.

(** ** Where the appends stand *)

Lemma well_placed_nil : well_placed [].
Proof. intros [|? ?] ? ? E; discriminate. Qed.

Lemma well_placed_snoc (t : list Event) (e : Event) :
  well_placed t -> appended_items [e] = [] -> well_placed (t ++ [e]).
Proof.
  intros H He before r after E.
  apply split_snoc in E as [(_ & <- & _)|(l & -> & ->)]; [discriminate|].
  eapply H. reflexivity.
Qed.

Lemma well_placed_block (t : list Event) (news : list ResultItem) :
  well_placed t -> fed t -> well_placed (t ++ map EvAppend news).
Proof.
  revert t. induction news as [|r news IH]; intros t H F; simpl.
  - now rewrite app_nil_r.
  - change (EvAppend r :: map EvAppend news)
      with ([EvAppend r] ++ map EvAppend news).
    rewrite app_assoc. apply IH.
    + intros before r' after E.
      apply split_snoc in E as [(_ & _ & ->)|(l & -> & ->)]; [exact F|].
      eapply H. reflexivity.
    + now exists t, (EvAppend r).
Qed.

Lemma stamp_quiet (P : string -> Prop) (base : nat) (items : list Item) :
  Forall (fun i => P (i_link i)) items ->
  Forall (fun r => P (r_link r)) (stamp base items).
Proof.
  revert base. induction items as [|x items IH]; intros base H; simpl.
  - constructor.
  - inversion H; subst. constructor; auto.
Qed.

(** Between a failed call and a later append lies a successful call. *)
Lemma well_placed_after_failure (tr before : list Event) (rq : Request)
  (resp : Response) (mid : list Event) (r : ResultItem) (after : list Event) :
  well_placed tr ->
  tr = before ++ EvCall rq resp :: mid ++ EvAppend r :: after ->
  is_success resp = false ->
  exists rq' items, In (EvCall rq' (Json (Some items))) mid.
Proof.
  intros W. revert r after.
  induction mid as [|e mid IH] using rev_ind; intros r after E F.
  - simpl in E.
    change (before ++ EvCall rq resp :: EvAppend r :: after)
      with (before ++ [EvCall rq resp] ++ EvAppend r :: after) in E.
    rewrite app_assoc in E. destruct (W _ _ _ E) as (b & e & Eb & Fe).
    apply app_inj_tail in Eb as [_ <-]. simpl in Fe. congruence.
  - rewrite <- app_assoc in E. simpl in E.
    assert (E' : tr = (before ++ EvCall rq resp :: mid ++ [e])
                      ++ EvAppend r :: after).
    { rewrite E, <- app_assoc. simpl. now rewrite <- app_assoc. }
    destruct (W _ _ _ E') as (b & e' & Eb & Fe).
    rewrite app_comm_cons, app_assoc in Eb.
    apply app_inj_tail in Eb as [_ <-].
    destruct e as [rq' [| |[items|]]| |r'|]; try discriminate.
    + exists rq', items. apply in_or_app. right. now left.
    + destruct (IH r' (EvAppend r :: after) E F) as (rq' & items & Hin).
      exists rq', items. apply in_or_app. now left.
Qed.

(** ** The invariant of the search *)

Section SearchFacts.

Variable netloc : string -> string.
Variable api : nat -> Request -> Response.
Variable query : string.
Variables api_keys cxs : list string.
Variable num_results : Z.
Variable proxy : option string.
Variable country : string.
Variable target_domain : option string.

Local Abbreviation matches := (domain_matches netloc target_domain).
Local Abbreviation quiet_link := (no_match netloc target_domain).
Local Abbreviation scan := (scan_items netloc target_domain).
Local Abbreviation tries :=
  (attempts netloc api query api_keys cxs proxy country target_domain).
Local Abbreviation loop :=
  (pages netloc api query api_keys cxs num_results proxy country target_domain).
Local Abbreviation search :=
  (google_search netloc api query api_keys cxs num_results proxy country
     target_domain).
Local Abbreviation unmatched := (Unmatched netloc num_results target_domain).
Local Abbreviation matched_at := (MatchedAt netloc api num_results target_domain).
Local Abbreviation sealed := (Sealed netloc api num_results target_domain).
Local Abbreviation the_range := (py_range 1 (num_results + 1) 10).

(** The loop over the items, by what the items hold. *)
Lemma scan_items_unmatched (items : list Item) (st : State) :
  Forall (fun i => quiet_link (i_link i)) items ->
  scan items st = (extend (stamp (length (results st)) items) st, None).
Proof.
  revert st. induction items as [|x items IH]; intros st H; simpl.
  - now rewrite extend_nil.
  - inversion H as [|? ? Hx Hr]; subst. unfold no_match in Hx. rewrite Hx.
    rewrite IH by exact Hr. rewrite extend_cons. do 3 f_equal.
    unfold append. simpl. rewrite length_app. simpl. lia.
Qed.

Lemma scan_items_matched (pre : list Item) (item : Item) (post : list Item)
  (st : State) :
  Forall (fun i => quiet_link (i_link i)) pre ->
  matches (i_link item) = true ->
  scan (pre ++ item :: post) st
  = (extend (stamp (length (results st)) (pre ++ [item])) st,
     Some (length (results st) + length pre + 1, i_link item)).
Proof.
  revert st. induction pre as [|x pre IH]; intros st H M; simpl.
  - rewrite M. unfold extend, append, result_of. simpl.
    now rewrite Nat.add_0_r.
  - inversion H as [|? ? Hx Hr]; subst. unfold no_match in Hx. rewrite Hx.
    rewrite IH by assumption. rewrite extend_cons.
    unfold append at 2 3. simpl. rewrite length_app. simpl.
    replace (length (results st) + 1) with (S (length (results st))) by lia.
    do 3 f_equal. lia.
Qed.

(** Either no item matches, or there is a first one that does. *)
Lemma first_match (items : list Item) :
  Forall (fun i => quiet_link (i_link i)) items \/
  exists pre item post,
    items = pre ++ item :: post /\
    Forall (fun i => quiet_link (i_link i)) pre /\
    matches (i_link item) = true.
Proof.
  induction items as [|x items [IH|(pre & item & post & -> & Hp & M)]].
  - left. constructor.
  - destruct (matches (i_link x)) eqn:Mx.
    + right. exists [], x, items. repeat split; auto.
    + left. constructor; assumption.
  - destruct (matches (i_link x)) eqn:Mx.
    + right. exists [], x, (pre ++ item :: post). repeat split; auto.
    + right. exists (x :: pre), item, post. repeat split; auto.
Qed.

Lemma unmatched_init : unmatched init.
Proof.
  split; simpl.
  - reflexivity.
  - apply positions_sequential_nil.
  - constructor.
  - apply paginated_nil.
  - apply well_placed_nil.
Qed.

Lemma unmatched_log (e : Event) (st : State) :
  unmatched st -> appended_items [e] = [] -> calls_of [e] = [] ->
  unmatched (log e st).
Proof.
  intros [Hr Hp Hl Hc Hw] Ea Ec. split; simpl; auto.
  - now rewrite appended_items_app, Ea, app_nil_r.
  - now apply paginated_quiet.
  - now apply well_placed_snoc.
Qed.

Lemma unmatched_called (rq : Request) (resp : Response) (st : State) :
  unmatched st ->
  In (p_start rq) the_range ->
  p_num rq = Z.min 10 (num_results - Z.of_nat (length (results st))) ->
  unmatched (called rq resp st).
Proof.
  intros [Hr Hp Hl Hc Hw] Hs Hn. split; simpl; auto.
  - rewrite appended_items_app. simpl. now rewrite app_nil_r.
  - apply paginated_call; auto. now rewrite <- Hr.
  - now apply well_placed_snoc.
Qed.

Lemma unmatched_extend (items : list Item) (st : State) :
  unmatched st ->
  fed (trace st) ->
  Forall (fun i => quiet_link (i_link i)) items ->
  unmatched (extend (stamp (length (results st)) items) st).
Proof.
  intros [Hr Hp Hl Hc Hw] Hf Hi. split; simpl.
  - now rewrite appended_items_app, appended_items_map, Hr.
  - now apply positions_sequential_stamp.
  - apply Forall_app. split; [exact Hl | now apply stamp_quiet].
  - apply paginated_quiet; [exact Hc | apply calls_of_map].
  - now apply well_placed_block.
Qed.

Lemma fed_called (rq : Request) (items : list Item) (st : State) :
  fed (trace (called rq (Json (Some items)) st)).
Proof. now exists (trace st), (EvCall rq (Json (Some items))). Qed.

(** The loop over the credentials keeps the invariant, or seals a match. *)
Lemma attempts_sealed (n : nat) (st : State) (start num : Z) :
  unmatched st ->
  In start the_range ->
  num = Z.min 10 (num_results - Z.of_nat (length (results st))) ->
  match tries start num n st with
  | PFound st' position found_link => matched_at st' position found_link
  | PSuccess st' | PFailed st' | PRaised st' _ => unmatched st'
  end.
Proof.
  revert st. induction n as [|n IH]; intros st U Hs Hn; simpl; [exact U|].
  destruct (next_pair api_keys cxs (key_cycle st)) as [[api_key cx]|];
    [|exact U].
  set (rq := params_of query proxy country start num api_key cx).
  assert (Uc : forall resp, unmatched (called rq resp st))
    by (intros resp; apply unmatched_called; auto).
  destruct (api (clock st) rq) as [|e|[items|]] eqn:R;
    try (apply IH; [apply unmatched_log; auto | exact Hs | exact Hn]).
  destruct (first_match items) as [Hq|(pre & item & post & -> & Hp & M)].
  - rewrite scan_items_unmatched by exact Hq.
    apply unmatched_extend; [apply Uc | apply fed_called | exact Hq].
  - rewrite scan_items_matched by assumption.
    exists st, rq, pre, item, post.
    split; [exact U|]. split; [apply Uc|]. split; [exact R|].
    split; [exact Hp|]. split; [exact M|]. now split.
Qed.

(** The loop over the pages ends in a sealed state. *)
Lemma pages_sealed (starts : list Z) (st : State) :
  incl starts the_range ->
  unmatched st ->
  sealed (fst (loop starts st)) (snd (loop starts st)).
Proof.
  revert st. induction starts as [|start later IH]; intros st Hin U; simpl.
  - split; [reflexivity | exact U].
  - assert (Hs : In start the_range) by (apply Hin; now left).
    assert (Hl : incl later the_range)
      by (intros z Hz; apply Hin; now right).
    pose proof (attempts_sealed (length api_keys) st start _ U Hs eq_refl) as A.
    destruct (tries start _ (length api_keys) st) as [st' p l|st'|st'|st' e].
    + simpl. split; [reflexivity | exact A].
    + destruct (Z.of_nat (length (results st')) >=? num_results)%Z.
      * simpl. split; [reflexivity | exact A].
      * apply IH; [exact Hl | now apply unmatched_log].
    + simpl. split; [reflexivity | now apply unmatched_log].
    + exact A.
Qed.

Lemma google_search_sealed : sealed (fst search) (snd search).
Proof. apply pages_sealed; [apply incl_refl | apply unmatched_init]. Qed.

(** In every case [results] is what was appended, positions run from 1,
    the calls are paginated and the appends follow successful calls. *)
Lemma sealed_results (out : Outcome) (st : State) :
  sealed out st ->
  results st = appended_items (trace st) /\
  positions_sequential (results st) /\
  paginated num_results (trace st) /\
  well_placed (trace st).
Proof.
  assert (Hu : forall s, unmatched s -> results s = appended_items (trace s) /\
            positions_sequential (results s) /\
            paginated num_results (trace s) /\ well_placed (trace s))
    by (intros s [? ? ? ? ?]; auto).
  destruct out as [rs [p|] [l|]|e]; simpl; try tauto.
  - intros [_ (st0 & rq & pre & item & post & _ & U & _ & _ & _ & -> & _)].
    pose proof (fed_called rq (pre ++ item :: post) st0) as F.
    destruct U as [Hr Hs Hl Hc Hw]. simpl in *. split; [|split; [|split]].
    + now rewrite appended_items_app, appended_items_map, Hr.
    + now apply positions_sequential_stamp.
    + apply paginated_quiet; [exact Hc | apply calls_of_map].
    + now apply well_placed_block.
  - intros [_ U]. auto.
  - auto.
Qed.

(** ** The accumulated list (C7) *)

(** C7. At every point of the search (after every prefix of its trace) the
    items appended so far carry the positions 1, 2, 3, ... in order, across
    pages; so does the list the search ends with and returns. An attempt
    that fails (quota exceeded, error, no [items]) appends nothing: an
    append that comes after a failed call comes after a later successful
    call as well. *)
Theorem positions_follow_accumulation (out : Outcome) (st : State) :
  google_search netloc api query api_keys cxs num_results proxy country
    target_domain = (out, st) ->
  (forall before after,
      trace st = before ++ after ->
      positions_sequential (appended_items before)) /\
  results st = appended_items (trace st) /\
  (forall rs position found_link,
      out = Returned rs position found_link ->
      rs = results st /\ positions_sequential rs) /\
  (forall before rq resp mid r after,
      trace st = before ++ EvCall rq resp :: mid ++ EvAppend r :: after ->
      is_success resp = false ->
      exists rq' items, In (EvCall rq' (Json (Some items))) mid).
Proof.
  intros E. pose proof google_search_sealed as S. rewrite E in S. simpl in S.
  destruct (sealed_results _ _ S) as (Hr & Hp & _ & Hw).
  split; [|split; [exact Hr|split]].
  - intros before after Et. rewrite Hr, Et, appended_items_app in Hp.
    eapply positions_sequential_prefix, Hp.
  - intros rs p l ->. destruct p as [p|], l as [l|]; simpl in S;
      try contradiction; destruct S as [-> _]; auto.
  - intros before rq resp mid r after Et F.
    eapply well_placed_after_failure; eauto.
Qed.

(** ** Early exit (C1, C10) *)

(** No item appended while the state is unmatched matches the domain. *)
Lemma unmatched_quiet (st : State) (before after : list Event)
  (r : ResultItem) :
  unmatched st ->
  trace st = before ++ EvAppend r :: after ->
  matches (r_link r) = false.
Proof.
  intros [Hr _ Hl _ _] E.
  apply (proj1 (Forall_forall _ _) Hl). rewrite Hr, E.
  apply appended_items_In.
Qed.

(** The shape of a matched state: the trace ends with the append of the
    matching item, which nothing but non-matching items precede. *)
Lemma matched_shape (st : State) (position : nat) (found_link : string) :
  matched_at st position found_link ->
  exists earlier r,
    trace st = earlier ++ [EvAppend r] /\
    results st = appended_items earlier ++ [r] /\
    Forall (fun r' => quiet_link (r_link r')) (appended_items earlier) /\
    matches (r_link r) = true /\
    r_link r = found_link /\
    r_position r = position /\
    position = S (length (appended_items earlier)).
Proof.
  intros (st0 & rq & pre & item & post & U0 & U & _ & Hp & M & -> & -> & ->).
  destruct U0 as [Hr _ Hl _ _].
  exists ((trace st0 ++ [EvCall rq (Json (Some (pre ++ item :: post)))])
          ++ map EvAppend (stamp (length (results st0)) pre)),
         (result_of item (length (results st0) + length pre + 1)).
  assert (Ea : appended_items
                 ((trace st0 ++ [EvCall rq (Json (Some (pre ++ item :: post)))])
                  ++ map EvAppend (stamp (length (results st0)) pre))
               = results st0 ++ stamp (length (results st0)) pre).
  { rewrite !appended_items_app, appended_items_map. simpl.
    now rewrite app_nil_r, Hr. }
  rewrite Ea. simpl. rewrite stamp_app, map_app. simpl.
  repeat split; auto.
  - now rewrite app_assoc.
  - now rewrite app_assoc.
  - apply Forall_app. split; [exact Hl | now apply stamp_quiet].
  - rewrite length_app, stamp_length. lia.
Qed.

(** One attempt that meets a 429. *)
Lemma attempts_quota (n : nat) (st : State) (start num : Z)
  (api_key cx : string) :
  next_pair api_keys cxs (key_cycle st) = Some (api_key, cx) ->
  api (clock st) (params_of query proxy country start num api_key cx)
  = Http429 ->
  attempts netloc api query api_keys cxs proxy country target_domain
    start num (S n) st
  = attempts netloc api query api_keys cxs proxy country target_domain
      start num n
      (log (EvPrint (MsgQuota api_key))
         (called (params_of query proxy country start num api_key cx)
            Http429 st)).
Proof. intros Hp Ha. simpl. now rewrite Hp, Ha. Qed.

(** One attempt whose response holds a matching item. *)
Lemma attempts_match (n : nat) (st : State) (start num : Z)
  (api_key cx : string) (pre : list Item) (item : Item) (post : list Item) :
  next_pair api_keys cxs (key_cycle st) = Some (api_key, cx) ->
  api (clock st) (params_of query proxy country start num api_key cx)
  = Json (Some (pre ++ item :: post)) ->
  Forall (fun i => no_match netloc target_domain (i_link i)) pre ->
  domain_matches netloc target_domain (i_link item) = true ->
  attempts netloc api query api_keys cxs proxy country target_domain
    start num (S n) st
  = PFound
      (extend (stamp (length (results st)) (pre ++ [item]))
         (called (params_of query proxy country start num api_key cx)
            (Json (Some (pre ++ item :: post))) st))
      (length (results st) + length pre + 1) (i_link item).
Proof.
  intros Hp Ha Hq M. simpl. rewrite Hp, Ha.
  now rewrite scan_items_matched by assumption.
Qed.

(** The search as a whole: a matching append is the last event. *)
Lemma matching_append_is_last (out : Outcome) (st : State)
  (before : list Event) (r : ResultItem) (after : list Event) :
  search = (out, st) ->
  trace st = before ++ EvAppend r :: after ->
  matches (r_link r) = true ->
  after = [] /\
  out = Returned (results st) (Some (r_position r)) (Some (r_link r)) /\
  r_position r = S (length (appended_items before)) /\
  r_position r = length (results st) /\
  Forall (fun r' => matches (r_link r') = false) (appended_items before).
Proof.
  intros E Et M. pose proof google_search_sealed as S. rewrite E in S.
  simpl in S.
  assert (Hu : unmatched st -> False).
  { intros U. pose proof (unmatched_quiet _ _ _ _ U Et). congruence. }
  destruct out as [rs [p|] [l|]|e]; simpl in S; try tauto.
  destruct S as [-> Hm].
  destruct (matched_shape _ _ _ Hm)
    as (earlier & r0 & Etr & Ers & Hq & _ & El & Ep & Ep').
  rewrite Etr in Et.
  apply split_snoc in Et as [(-> & Er & ->)|(l' & -> & ->)].
  - inversion Er; subst r0. subst. repeat split; auto.
    rewrite Ers, length_app. simpl. lia.
  - exfalso. pose proof (appended_items_In before l' r) as Hin.
    apply (proj1 (Forall_forall _ _) Hq) in Hin. unfold no_match in Hin.
    congruence.
Qed.

(** C1. During a successful page the items are appended one by one, each
    with the next global position. When the response of an attempt holds an
    item on the target domain, after items that are not, the loop over the
    credentials ends at once with that item's position and link, with the
    items up to it appended and whatever attempts were left unused; the
    loop over the pages then returns them, whatever pages were left. On
    every run of the search, the append of a matching item is therefore the
    last event of the trace (no further item, attempt, page, message or
    pause), the search returns that item's position and link, and no item
    appended before it matches: what is reported is the first occurrence. *)
Theorem early_exit_on_first_match :
  (forall n st start num api_key cx pre item post,
      next_pair api_keys cxs (key_cycle st) = Some (api_key, cx) ->
      api (clock st) (params_of query proxy country start num api_key cx)
      = Json (Some (pre ++ item :: post)) ->
      Forall (fun i => domain_matches netloc target_domain (i_link i) = false)
        pre ->
      domain_matches netloc target_domain (i_link item) = true ->
      attempts netloc api query api_keys cxs proxy country target_domain
        start num (S n) st
      = PFound
          (extend (stamp (length (results st)) (pre ++ [item]))
             (called (params_of query proxy country start num api_key cx)
                (Json (Some (pre ++ item :: post))) st))
          (length (results st) + length pre + 1) (i_link item)) /\
  (forall start later st st' position found_link,
      attempts netloc api query api_keys cxs proxy country target_domain
        start (Z.min 10 (num_results - Z.of_nat (length (results st))))
        (length api_keys) st = PFound st' position found_link ->
      pages netloc api query api_keys cxs num_results proxy country
        target_domain (start :: later) st
      = (Returned (results st') (Some position) (Some found_link), st')) /\
  (forall out st before r after,
      google_search netloc api query api_keys cxs num_results proxy country
        target_domain = (out, st) ->
      trace st = before ++ EvAppend r :: after ->
      domain_matches netloc target_domain (r_link r) = true ->
      after = [] /\
      out = Returned (results st) (Some (r_position r)) (Some (r_link r)) /\
      r_position r = S (length (appended_items before)) /\
      r_position r = length (results st) /\
      Forall
        (fun r' => domain_matches netloc target_domain (r_link r') = false)
        (appended_items before)).
Proof.
  split; [|split].
  - intros n st start num api_key cx pre item post Hp Ha Hq M.
    now apply attempts_match.
  - intros start later st st' position found_link E. simpl. now rewrite E.
  - intros out st before r after. apply matching_append_is_last.
Qed.

(** C10. When a match is reported, the returned list ends exactly at the
    matching item: its length is the reported position and its last element
    carries the reported link. The last response held the matching item
    after [pre] and before [post]; the items of [pre] and the matching item
    were appended, those of [post] were not, and they are not written to the
    log either, which gets one line per returned item. *)
Theorem match_ends_the_list (rs : list ResultItem) (position : nat)
  (found_link : option string) (st : State) :
  google_search netloc api query api_keys cxs num_results proxy country
    target_domain = (Returned rs (Some position) found_link, st) ->
  length rs = position /\
  (exists front r,
      rs = front ++ [r] /\ found_link = Some (r_link r) /\
      r_position r = position /\
      domain_matches netloc target_domain (r_link r) = true) /\
  (exists earlier rq pre item post fetched,
      trace st = earlier ++ EvCall rq (Json (Some (pre ++ item :: post)))
                   :: map EvAppend fetched /\
      rs = appended_items earlier ++ fetched /\
      map r_link fetched = map i_link (pre ++ [item])) /\
  (forall fecha_hoy, length (sink_lines fecha_hoy rs) = position).
Proof.
  intros E. pose proof google_search_sealed as S. rewrite E in S. simpl in S.
  destruct found_link as [l|]; [|contradiction]. destruct S as [-> Hm].
  destruct (matched_shape _ _ _ Hm)
    as (earlier & r0 & Etr & Ers & Hq & M & El & Ep & Ep').
  assert (Hlen : length (results st) = position).
  { rewrite Ers, length_app. simpl. lia. }
  split; [exact Hlen|]. split; [|split].
  - exists (appended_items earlier), r0. subst. auto.
  - destruct Hm as (st0 & rq & pre & item & post & U0 & _ & _ & _ & _ & -> & _).
    destruct U0 as [Hr _ _ _ _].
    exists (trace st0), rq, pre, item, post,
      (stamp (length (results st0)) (pre ++ [item])).
    simpl. rewrite <- app_assoc, stamp_links, Hr. auto.
  - intros fecha_hoy. unfold sink_lines. now rewrite length_map.
Qed.

(** ** Credential attempts (C4) *)

Lemma next_pair_some (k : nat) :
  pairs api_keys cxs <> [] ->
  exists api_key cx, next_pair api_keys cxs k = Some (api_key, cx).
Proof.
  intros Hne. unfold next_pair.
  destruct (nth_error (pairs api_keys cxs) (k mod length (pairs api_keys cxs)))
    as [[api_key cx]|] eqn:E; [eauto|].
  apply nth_error_None in E.
  assert (length (pairs api_keys cxs) <> 0)
    by (destruct (pairs api_keys cxs); [congruence | discriminate]).
  pose proof (Nat.mod_upper_bound k (length (pairs api_keys cxs))). lia.
Qed.

(** With equally long lists, the cycle is empty only if there is no attempt. *)
Lemma equal_lengths_pairs :
  length api_keys = length cxs ->
  pairs api_keys cxs <> [] \/ api_keys = [].
Proof.
  unfold pairs. destruct api_keys, cxs; simpl; intros E;
    [now right | discriminate | discriminate | left; discriminate].
Qed.

Lemma pairs_length :
  length api_keys = length cxs ->
  length (pairs api_keys cxs) = length api_keys.
Proof. intros E. unfold pairs. rewrite length_combine. lia. Qed.

(** What one page adds to the trace: at most [n] calls, all for that page. *)
Lemma attempts_grows (n : nat) (st : State) (start num : Z) :
  exists t,
    trace (state_of (tries start num n st)) = trace st ++ t /\
    length (calls_of t) <= n /\
    Forall (fun c => p_start (fst c) = start) (calls_of t).
Proof.
  revert st. induction n as [|n IH]; intros st; simpl.
  - exists []. rewrite app_nil_r. simpl. auto.
  - destruct (next_pair api_keys cxs (key_cycle st)) as [[api_key cx]|].
    2:{ exists []. rewrite app_nil_r. simpl. auto with arith. }
    set (rq := params_of query proxy country start num api_key cx).
    assert (Hfail : forall resp msg,
      exists t,
        trace (state_of (tries start num n
                 (log (EvPrint msg) (called rq resp st)))) = trace st ++ t /\
        length (calls_of t) <= S n /\
        Forall (fun c => p_start (fst c) = start) (calls_of t)).
    { intros resp msg.
      destruct (IH (log (EvPrint msg) (called rq resp st))) as (t & Et & Hl & Hf).
      exists (EvCall rq resp :: EvPrint msg :: t). simpl in *.
      rewrite Et, <- !app_assoc. simpl.
      split; [reflexivity|]. split; [lia|]. constructor; auto. }
    destruct (api (clock st) rq) as [|e|[items|]]; try apply Hfail.
    assert (Hok : forall news,
      exists t,
        trace (extend news (called rq (Json (Some items)) st)) = trace st ++ t /\
        length (calls_of t) <= S n /\
        Forall (fun c => p_start (fst c) = start) (calls_of t)).
    { intros news. exists (EvCall rq (Json (Some items)) :: map EvAppend news).
      simpl. rewrite <- app_assoc, calls_of_map. simpl.
      split; [reflexivity|]. split; [lia|]. constructor; auto. }
    destruct (first_match items) as [Hq|(pre & item & post & -> & Hp & M)].
    + rewrite scan_items_unmatched by exact Hq. apply Hok.
    + rewrite scan_items_matched by assumption. apply Hok.
Qed.

Lemma calls_at_other (s start : Z) (t : list Event) :
  Forall (fun c => p_start (fst c) = start) (calls_of t) ->
  s <> start -> calls_at s t = [].
Proof.
  unfold calls_at. induction (calls_of t) as [|c l IH]; intros H Hs; simpl.
  - reflexivity.
  - inversion H as [|? ? Hc Hl]; subst.
    destruct (Z.eqb_spec (p_start (fst c)) s); [congruence | auto].
Qed.

Lemma calls_at_length (s : Z) (t : list Event) :
  length (calls_at s t) <= length (calls_of t).
Proof. apply filter_length_le. Qed.

(** What the pages add to the trace: per page, at most [len(api_keys)] calls. *)
Lemma pages_grows (starts : list Z) (st : State) :
  NoDup starts ->
  exists t,
    trace (snd (loop starts st)) = trace st ++ t /\
    forall s,
      length (calls_at s t) <= length api_keys /\
      (~ In s starts -> calls_at s t = []).
Proof.
  revert st. induction starts as [|start later IH]; intros st Hnd; simpl.
  - exists []. rewrite app_nil_r. simpl. auto with arith.
  - inversion Hnd as [|? ? Hnew Hnd']; subst.
    destruct (attempts_grows (length api_keys) st start
                (Z.min 10 (num_results - Z.of_nat (length (results st)))))
      as (t & Et & Hl & Hf).
    assert (Hpage : forall s,
      length (calls_at s t) <= length api_keys /\
      (~ In s (start :: later) -> calls_at s t = [])).
    { intros s. split.
      - etransitivity; [apply calls_at_length | exact Hl].
      - intros Hs. apply (calls_at_other s start); [exact Hf|].
        intros ->. apply Hs. now left. }
    destruct (tries start _ (length api_keys) st) as [st' p l|st'|st'|st' e];
      simpl in Et; simpl.
    + exists t. auto.
    + destruct (Z.of_nat (length (results st')) >=? num_results)%Z; simpl.
      * exists t. auto.
      * destruct (IH (log (EvSleep 1) st') Hnd') as (t' & Et' & Ht').
        exists (t ++ EvSleep 1 :: t'). split.
        { rewrite Et'. simpl. rewrite Et, <- !app_assoc. reflexivity. }
        intros s. rewrite calls_at_app.
        change (calls_at s (EvSleep 1 :: t')) with (calls_at s t').
        rewrite length_app.
        destruct (Z.eq_dec s start) as [->|Hne].
        -- rewrite (proj2 (Ht' start) Hnew). simpl.
           rewrite app_nil_r, Nat.add_0_r. split; [apply Hpage|].
           intros Hs. exfalso. apply Hs. now left.
        -- rewrite (calls_at_other s start t Hf Hne). simpl.
           split; [apply Ht'|]. intros Hs. apply Ht'.
           intros Hin. apply Hs. now right.
    + exists (t ++ [EvPrint MsgAllFailed]). rewrite Et, <- app_assoc.
      split; [reflexivity|]. intros s. rewrite calls_at_app.
      change (calls_at s [EvPrint MsgAllFailed]) with (@nil (Request * Response)).
      rewrite app_nil_r. apply Hpage.
    + exists t. auto.
Qed.

Lemma py_range_NoDup (start stop step : Z) :
  (0 < step)%Z -> NoDup (py_range start stop step).
Proof.
  intros Hs. unfold py_range.
  generalize (Z.to_nat ((stop - start + step - 1) / step)) as m.
  generalize 0 as k. intros k m. revert k.
  induction m as [|m IH]; intros k; simpl; constructor; [|apply IH].
  intros Hin. apply in_map_iff in Hin as (j & Ej & Hj).
  apply in_seq in Hj. nia.
Qed.

(** When every attempt of a page fails, the loop runs out with [results]
    as it was. *)
Lemma attempts_all_fail (n : nat) (st : State) (start num : Z) :
  pairs api_keys cxs <> [] \/ n = 0 ->
  (forall i rq, i < n -> is_success (api (clock st + i) rq) = false) ->
  exists st',
    tries start num n st = PFailed st' /\
    results st' = results st /\
    clock st' = clock st + n /\
    length (calls_of (trace st')) = length (calls_of (trace st)) + n.
Proof.
  revert st. induction n as [|n IH]; intros st Hp Hf; simpl.
  - exists st. repeat split; lia.
  - destruct Hp as [Hp|Hp]; [|discriminate].
    destruct (next_pair_some (key_cycle st) Hp) as (api_key & cx & ->).
    set (rq := params_of query proxy country start num api_key cx).
    pose proof (Hf 0 rq (Nat.lt_0_succ n)) as F0.
    rewrite Nat.add_0_r in F0.
    assert (Hnext : forall resp msg,
      exists st',
        tries start num n (log (EvPrint msg) (called rq resp st)) = PFailed st' /\
        results st' = results st /\
        clock st' = clock st + S n /\
        length (calls_of (trace st')) = length (calls_of (trace st)) + S n).
    { intros resp msg.
      destruct (IH (log (EvPrint msg) (called rq resp st))) as (st' & E & Hr & Hc & Hl).
      - now left.
      - intros i rq' Hi. simpl.
        replace (S (clock st + i)) with (clock st + S i) by lia.
        apply Hf. lia.
      - exists st'. simpl in *. rewrite !calls_of_app, !length_app in Hl.
        simpl in Hl. repeat split; auto; lia. }
    destruct (api (clock st) rq) as [|e|[items|]]; try apply Hnext.
    discriminate.
Qed.

(** C4. With as many keys as search-engine ids: for every page the search
    makes at most as many calls as there are credentials; if every attempt
    of a page fails, the search ends there, after one attempt per
    credential, and returns what was accumulated so far, unmatched; and if
    every credential fails on the first page, the returned list is empty and
    no position is reported, whatever the requested number of results. *)
Theorem exhausted_page_ends_search :
  length api_keys = length cxs ->
  (forall start,
      length (calls_at start
                (trace (snd (google_search netloc api query api_keys cxs
                               num_results proxy country target_domain))))
      <= length (pairs api_keys cxs)) /\
  (forall start later st,
      (forall i rq, i < length (pairs api_keys cxs) ->
                    is_success (api (clock st + i) rq) = false) ->
      exists st',
        pages netloc api query api_keys cxs num_results proxy country
          target_domain (start :: later) st
        = (Returned (results st) None None, st') /\
        results st' = results st /\
        clock st' = clock st + length (pairs api_keys cxs) /\
        length (calls_of (trace st'))
        = length (calls_of (trace st)) + length (pairs api_keys cxs)) /\
  ((forall i rq, i < length (pairs api_keys cxs) ->
                 is_success (api i rq) = false) ->
   fst (google_search netloc api query api_keys cxs num_results proxy country
          target_domain) = Returned [] None None).
Proof.
  intros Hlen. rewrite (pairs_length Hlen).
  assert (Hpage : forall start later st,
    (forall i rq, i < length api_keys ->
                  is_success (api (clock st + i) rq) = false) ->
    exists st',
      loop (start :: later) st = (Returned (results st) None None, st') /\
      results st' = results st /\
      clock st' = clock st + length api_keys /\
      length (calls_of (trace st'))
      = length (calls_of (trace st)) + length api_keys).
  { intros start later st Hf. simpl.
    destruct (attempts_all_fail (length api_keys) st start
                (Z.min 10 (num_results - Z.of_nat (length (results st)))))
      as (st' & -> & Hr & Hc & Hl); auto.
    - destruct (equal_lengths_pairs Hlen) as [Hp| ->]; auto.
    - exists (log (EvPrint MsgAllFailed) st'). simpl.
      rewrite calls_of_app, length_app. simpl.
      rewrite Hr. repeat split; auto; lia. }
  split; [|split].
  - intros start.
    destruct (pages_grows the_range init (py_range_NoDup 1 (num_results + 1) 10 eq_refl))
      as (t & Et & Ht).
    unfold google_search. rewrite Et. apply Ht.
  - exact Hpage.
  - intros Hf. unfold google_search.
    destruct the_range as [|start later]; [reflexivity|].
    destruct (Hpage start later init Hf) as (st' & -> & _). reflexivity.
Qed.

(** ** Pagination and the budget (C6) *)


Lemma pages_cons (start : Z) (later : list Z) (st : State) :
  loop (start :: later) st
  = match tries start
            (Z.min 10 (num_results - Z.of_nat (length (results st))))
            (length api_keys) st with
    | PFound st' position found_link =>
        (Returned (results st') (Some position) (Some found_link), st')
    | PRaised st' e => (Raised e, st')
    | PFailed st' =>
        (Returned (results (log (EvPrint MsgAllFailed) st')) None None,
         log (EvPrint MsgAllFailed) st')
    | PSuccess st' =>
        if (Z.of_nat (length (results st')) >=? num_results)%Z
        then (Returned (results st') None None, st')
        else loop later (log (EvSleep 1) st')
    end.
Proof. reflexivity. Qed.


Section FullPages.

(** The scenario: there is a credential, the budget is not negative, and
    every call succeeds with items that do not match, at most as many as
    asked for and exactly as many on every page but the last. *)
Hypothesis some_pair : pairs api_keys cxs <> [].
Hypothesis some_key : api_keys <> [].
Hypothesis budget : (0 <= num_results)%Z.
Hypothesis full :
  forall i rq, exists items,
    api i rq = Json (Some items) /\
    Forall (fun it => quiet_link (i_link it)) items /\
    length items <= Z.to_nat (p_num rq) /\
    ((p_start rq + 10 <= num_results)%Z ->
     length items = Z.to_nat (p_num rq)).



End FullPages.


End SearchFacts.

(** ** The position resolver (C5) *)

(** C5. Whether an item matches is a function of its link and of the target
    domain alone: it matches exactly when the target domain is not empty (and
    given at all) and, lower-cased, is a substring of the lower-cased
    network location of the link (not of the whole URL). So "imgur.com"
    matches the host "www.imgur.com", and it matches "imgur.com.evil.net" as
    well as a true subdomain; a link that holds the domain in its path only
    does not match. *)
Theorem domain_match_is_host_substring :
  (forall netloc target_domain link,
      domain_matches netloc target_domain link = true <->
      exists domain,
        target_domain = Some domain /\ domain <> ""%string /\
        Text.Substring (Text.lower domain) (Text.lower (netloc link))) /\
  domain_matches Urllib.netloc (Some "imgur.com")
    "https://www.imgur.com/gallery" = true /\
  domain_matches Urllib.netloc (Some "imgur.com")
    "https://imgur.com.evil.net/" = true /\
  domain_matches Urllib.netloc (Some "imgur.com")
    "https://i.imgur.com/a.png" = true /\
  domain_matches Urllib.netloc (Some "IMGUR.com")
    "https://WWW.Imgur.COM/" = true /\
  domain_matches Urllib.netloc (Some "imgur.com")
    "https://example.org/imgur.com" = false.
Proof.
  split; [|repeat split; reflexivity].
  intros netloc target_domain link. unfold domain_matches. split.
  - destruct target_domain as [domain|]; [|discriminate].
    intros H. apply andb_prop in H as [Hne Hc].
    exists domain. split; [reflexivity|]. split.
    + intros ->. discriminate.
    + now apply TextFacts.contains_Substring.
  - intros (domain & -> & Hne & Hs).
    apply andb_true_intro. split.
    + apply negb_true_iff. now apply String.eqb_neq.
    + now apply TextFacts.contains_Substring.
Qed.

(** C5 as stated fails for the empty target domain: the empty string is a
    substring of every host, and line 75 matches nothing with it. *)
Lemma empty_domain_matches_nothing :
  Text.Substring (Text.lower "") (Text.lower (Urllib.netloc "https://www.imgur.com/"))
  /\ domain_matches Urllib.netloc (Some "") "https://www.imgur.com/" = false
  /\ ~ (forall target link,
          domain_matches Urllib.netloc (Some target) link = true <->
          Text.Substring (Text.lower target) (Text.lower (Urllib.netloc link))).
Proof.
  assert (S : Text.Substring (Text.lower "")
                (Text.lower (Urllib.netloc "https://www.imgur.com/")))
    by (now exists ""%string, "www.imgur.com"%string).
  split; [exact S|]. split; [reflexivity|].
  intros H. apply H in S. discriminate.
Qed.

(** ** The search returns *)

Section Returns.

Variable netloc : string -> string.
Variable api : nat -> Request -> Response.
Variable query : string.
Variables api_keys cxs : list string.
Variable num_results : Z.
Variable proxy : option string.
Variable country : string.
Variable target_domain : option string.

(** [next(key_cycle)] raises only on an empty cycle. *)
Lemma attempts_no_raise (n : nat) (st : State) (start num : Z) :
  pairs api_keys cxs <> [] \/ n = 0 ->
  forall st' e,
    attempts netloc api query api_keys cxs proxy country target_domain
      start num n st <> PRaised st' e.
Proof.
  revert st. induction n as [|n IH]; intros st Hp st' e; simpl.
  - discriminate.
  - destruct Hp as [Hp|Hp]; [|discriminate].
    destruct (next_pair_some api_keys cxs (key_cycle st) Hp)
      as (api_key & cx & ->).
    destruct (api (clock st) _) as [|d|[items|]]; try (apply IH; now left).
    destruct (scan_items netloc target_domain items _) as [st2 [[p l]|]];
      discriminate.
Qed.

Lemma pages_no_raise (starts : list Z) (st : State) :
  pairs api_keys cxs <> [] \/ api_keys = [] ->
  forall e,
    fst (pages netloc api query api_keys cxs num_results proxy country
           target_domain starts st) <> Raised e.
Proof.
  intros Hp e. revert st. induction starts as [|start later IH]; intros st.
  - discriminate.
  - simpl.
    assert (Hn : pairs api_keys cxs <> [] \/ length api_keys = 0)
      by (destruct Hp as [Hp| ->]; auto).
    pose proof (attempts_no_raise (length api_keys) st start
                  (Z.min 10 (num_results - Z.of_nat (length (results st)))) Hn)
      as A.
    destruct (attempts _ _ _ _ _ _ _ _ _ _ _ st) as [st' p l|st'|st'|st' e'].
    + discriminate.
    + destruct (Z.of_nat (length (results st')) >=? num_results)%Z;
        [discriminate | apply IH].
    + discriminate.
    + now destruct (A st' e').
Qed.

(** With as many keys as ids the search of the model returns: a list, and
    either a position with its link or neither. (Every response of the model
    is a failure or a body lines 60-78 can handle.) *)
Lemma google_search_returns :
  length api_keys = length cxs ->
  exists rs st,
    (google_search netloc api query api_keys cxs num_results proxy country
       target_domain = (Returned rs None None, st)) \/
    (exists position found_link,
        google_search netloc api query api_keys cxs num_results proxy country
          target_domain
        = (Returned rs (Some (S position)) (Some found_link), st)).
Proof.
  intros Hlen.
  pose proof (google_search_sealed netloc api query api_keys cxs num_results
                proxy country target_domain) as S.
  pose proof (pages_no_raise (py_range 1 (num_results + 1) 10) init
                (equal_lengths_pairs api_keys cxs Hlen)) as R.
  fold (google_search netloc api query api_keys cxs num_results proxy country
          target_domain) in R.
  destruct (google_search netloc api query api_keys cxs num_results proxy
              country target_domain) as [[rs [p|] [l|]|e] st];
    simpl in S, R; try contradiction.
  - exists rs, st. right.
    destruct S as [_ (st0 & rq & pre & item & post & _ & _ & _ & _ & _ & _ & -> & _)].
    exists (length (results st0) + length pre), l.
    now rewrite Nat.add_1_r.
  - exists rs, st. now left.
  - now destruct (R e).
Qed.

End Returns.

(** ** The script *)

Lemma write_results_raises (fault : SinkFault) (fs : Files) (file : string)
  (lines : list string) :
  snd (write_results fault fs file lines) = sink_raises fault (length lines).
Proof.
  destruct fault as [| |k]; simpl; try reflexivity.
  now destruct (k <? length lines)%nat.
Qed.

Lemma sink_lines_bodies (fecha_hoy : string) (rs : list ResultItem) :
  sink_lines fecha_hoy rs = map (fun r => (fecha_hoy ++ line_body r)%string) rs.
Proof. reflexivity. Qed.

Lemma text_of_appended (fs : Files) (file data : string) :
  text_of (appended_to fs file data) file = (text_of fs file ++ data)%string.
Proof. unfold text_of at 1, appended_to. now rewrite String.eqb_refl. Qed.

Lemma appended_elsewhere (fs : Files) (file data other : string) :
  other <> file -> appended_to fs file data other = fs other.
Proof.
  intros H. unfold appended_to.
  now destruct (String.eqb_spec other file).
Qed.

(** Whatever happens to the output file, what it held stays as a prefix. *)
Lemma write_results_keeps (fault : SinkFault) (fs : Files) (file : string)
  (lines : list string) :
  exists written,
    text_of (fst (write_results fault fs file lines)) file
    = (text_of fs file ++ written)%string.
Proof.
  destruct fault as [| |k]; simpl.
  - eexists. apply text_of_appended.
  - exists ""%string. now rewrite TextFacts.append_nil_r.
  - destruct (k <? length lines)%nat; simpl; eexists; apply text_of_appended.
Qed.

Section ScriptFacts.

Variable netloc : string -> string.
Variables API_KEYS CXS : list string.

(** What a run is, once the search has returned. *)
Lemma main_after_search (args : Args) (w : World) (rs : list ResultItem)
  (position : option nat) (found_link : option string) (st : State) :
  length API_KEYS = length CXS ->
  google_search netloc (network w) (arg_keyword args) API_KEYS CXS
    (arg_results args) (arg_proxy args) (arg_country args)
    (Some (arg_domain args)) = (Returned rs position found_link, st) ->
  let said :=
    EvPrint (MsgSearching (arg_keyword args) (Text.upper (arg_country args)))
    :: trace st
    ++ verdict (arg_domain args) (arg_results args) position found_link in
  let file := output_file_of (arg_keyword args) (arg_country args) in
  let lines := sink_lines (strftime_Ymd (today w)) rs in
  exit_code (main netloc API_KEYS CXS args w)
  = (if sink_raises (sink_fault w) (length rs) then 1 else 0)%Z /\
  events (main netloc API_KEYS CXS args w)
  = (if sink_raises (sink_fault w) (length rs) then said
     else said ++ [EvPrint (MsgSaved file)]) /\
  files_after (main netloc API_KEYS CXS args w)
  = fst (write_results (sink_fault w) (files w) file lines).
Proof.
  intros Hlen E said file lines. unfold main.
  rewrite Hlen, Nat.eqb_refl, E. cbn [negb].
  pose proof (write_results_raises (sink_fault w) (files w) file lines) as R.
  unfold lines at 2 in R. unfold sink_lines in R. rewrite length_map in R.
  fold file lines. rewrite <- R.
  now destruct (write_results (sink_fault w) (files w) file lines) as [fs [|]].
Qed.

(** ** Exit codes (C3, C8) *)

(** C3. The exit code of the script. With [--help] the process exits with
    0 and with a refused command line with 2, both before line 128. With a
    parsed command line: when the list of keys and the list of
    search-engine ids differ in length, the run prints the configuration
    error, makes no network call, leaves the files alone and exits with
    code 1; when they have the same length and the search returns, the exit
    code does not depend on the match: it is 0 when the output file is
    written without error, and 1 when writing it raises. *)
Theorem exit_code_by_configuration (args : Args) (w : World) :
  script netloc API_KEYS CXS Help w
  = {| exit_code := 0; events := []; files_after := files w |} /\
  script netloc API_KEYS CXS Refused w
  = {| exit_code := 2; events := []; files_after := files w |} /\
  (length API_KEYS <> length CXS ->
   script netloc API_KEYS CXS (Parsed args) w
   = {| exit_code := 1; events := [EvPrint MsgConfigError];
        files_after := files w |} /\
   calls_of (events (script netloc API_KEYS CXS (Parsed args) w)) = []) /\
  (length API_KEYS = length CXS ->
   forall rs position found_link st,
     google_search netloc (network w) (arg_keyword args) API_KEYS CXS
       (arg_results args) (arg_proxy args) (arg_country args)
       (Some (arg_domain args)) = (Returned rs position found_link, st) ->
     exit_code (script netloc API_KEYS CXS (Parsed args) w)
     = (if sink_raises (sink_fault w) (length rs) then 1 else 0)%Z /\
     (sink_fault w = NoFault ->
      exit_code (script netloc API_KEYS CXS (Parsed args) w) = 0%Z)).
Proof.
  split; [reflexivity|]. split; [reflexivity|]. cbn [script]. split.
  - intros Hne. unfold main.
    destruct (Nat.eqb_spec (length API_KEYS) (length CXS)); [contradiction|].
    now split.
  - intros Hlen rs position found_link st E.
    destruct (main_after_search args w _ _ _ _ Hlen E) as (Hx & _).
    split; [exact Hx|]. intros Hf. rewrite Hx, Hf. reflexivity.
Qed.

(** C8. When opening or writing the output file raises, nothing in the
    script catches it: the process ends with exit code 1, where the same run
    with a writable file ends with 0. The verdict is printed all the same,
    since it is printed before the file is opened; only the final message
    about the saved file is missing. *)
Theorem sink_failure_after_verdict (args : Args) (w : World)
  (rs : list ResultItem) (position : option nat) (found_link : option string)
  (st : State) :
  length API_KEYS = length CXS ->
  google_search netloc (network w) (arg_keyword args) API_KEYS CXS
    (arg_results args) (arg_proxy args) (arg_country args)
    (Some (arg_domain args)) = (Returned rs position found_link, st) ->
  sink_raises (sink_fault w) (length rs) = true ->
  exit_code (main netloc API_KEYS CXS args w) = 1%Z /\
  exit_code (main netloc API_KEYS CXS args (with_fault NoFault w)) = 0%Z /\
  events (main netloc API_KEYS CXS args w)
  = EvPrint (MsgSearching (arg_keyword args) (Text.upper (arg_country args)))
    :: trace st
    ++ verdict (arg_domain args) (arg_results args) position found_link /\
  verdict (arg_domain args) (arg_results args) position found_link <> [] /\
  events (main netloc API_KEYS CXS args (with_fault NoFault w))
  = events (main netloc API_KEYS CXS args w)
    ++ [EvPrint (MsgSaved (output_file_of (arg_keyword args)
                             (arg_country args)))].
Proof.
  intros Hlen E Hr.
  destruct (main_after_search args w _ _ _ _ Hlen E) as (Hx & He & _).
  destruct (main_after_search args (with_fault NoFault w) _ _ _ _ Hlen E)
    as (Hx' & He' & _).
  simpl in Hx', He'. rewrite Hr in Hx, He.
  repeat split; auto.
  - unfold verdict. now destruct position as [[|p]|].
  - now rewrite He', He.
Qed.

(** ** The result sink (C9) *)

(** C9. The output file is named from the keyword (spaces as underscores)
    and the country. A run appends to it one [date|link|position] line per
    returned item and changes no other file; a second run that gets the same
    results appends the same block again after the first one, with the lines
    differing only in the date when the day differs. What the file held
    before stays in place as a prefix: nothing is truncated, reordered,
    rewritten or deduplicated. *)
Theorem sink_appends_blocks (args : Args) (w : World) (later : Date)
  (rs : list ResultItem) (position : option nat) (found_link : option string)
  (st : State) :
  length API_KEYS = length CXS ->
  sink_fault w = NoFault ->
  google_search netloc (network w) (arg_keyword args) API_KEYS CXS
    (arg_results args) (arg_proxy args) (arg_country args)
    (Some (arg_domain args)) = (Returned rs position found_link, st) ->
  let file := output_file_of (arg_keyword args) (arg_country args) in
  let first_run := main netloc API_KEYS CXS args w in
  let second_run :=
    main netloc API_KEYS CXS args (later_run (files_after first_run) later w) in
  let block d := String.concat "" (sink_lines (strftime_Ymd d) rs) in
  file = ("seo_results_" ++ Text.replace_space (arg_keyword args) ++ "_"
          ++ arg_country args ++ ".txt")%string /\
  text_of (files_after first_run) file
  = (text_of (files w) file ++ block (today w))%string /\
  text_of (files_after second_run) file
  = (text_of (files w) file ++ block (today w) ++ block later)%string /\
  (forall d, sink_lines (strftime_Ymd d) rs
             = map (fun r => (strftime_Ymd d ++ line_body r)%string) rs) /\
  (forall other, other <> file ->
                 files_after second_run other = files w other) /\
  (forall fault, exists written,
      text_of (files_after (main netloc API_KEYS CXS args (with_fault fault w)))
        file
      = (text_of (files w) file ++ written)%string).
Proof.
  intros Hlen Hf E file first_run second_run block.
  destruct (main_after_search args w _ _ _ _ Hlen E) as (_ & _ & H1).
  destruct (main_after_search args (later_run (files_after first_run) later w)
              _ _ _ _ Hlen E) as (_ & _ & H2).
  fold first_run in H1. fold second_run in H2. simpl in H2.
  rewrite Hf in H1, H2. simpl in H1, H2. fold file in H1, H2.
  split; [reflexivity|]. split; [|split; [|split]].
  - rewrite H1. apply text_of_appended.
  - rewrite H2, text_of_appended, H1, text_of_appended.
    apply TextFacts.append_assoc.
  - intros d. apply sink_lines_bodies.
  - split.
    + intros other Hne.
      rewrite H2, appended_elsewhere, H1, appended_elsewhere; auto.
    + intros fault.
      destruct (main_after_search args (with_fault fault w) _ _ _ _ Hlen E)
        as (_ & _ & H3).
      rewrite H3. apply write_results_keeps.
Qed.

(** ** The end-to-end scenario (C2) *)

(** The search of the scenario: two credentials, the first always over
    quota, the second answering page 1 with the target at index 3. *)
Lemma scenario_search (K1 K2 C1 C2 : string) (api : nat -> Request -> Response)
  (query : string) (proxy : option string) (country : string)
  (target : option string) (pre : list Item) (item : Item) (post : list Item) :
  (forall i rq, p_key rq = K1 -> api i rq = Http429) ->
  (forall i rq, p_key rq = K2 -> p_start rq = 1%Z ->
                api i rq = Json (Some (pre ++ item :: post))) ->
  Forall (fun it => domain_matches netloc target (i_link it) = false) pre ->
  domain_matches netloc target (i_link item) = true ->
  exists st,
    google_search netloc api query [K1; K2] [C1; C2] 20 proxy country target
    = (Returned (stamp 0 (pre ++ [item])) (Some (length pre + 1))
         (Some (i_link item)), st) /\
    map snd (calls_of (trace st)) = [Http429; Json (Some (pre ++ item :: post))].
Proof.
  intros H1 H2 Hq M. unfold google_search.
  change (py_range 1 (20 + 1) 10) with [1; 11]%Z.
  rewrite pages_cons. change (length [K1; K2]) with 2.
  rewrite (attempts_quota _ _ _ _ _ _ _ _ 1 init _ _ K1 C1);
    [|reflexivity|now apply H1].
  rewrite (attempts_match _ _ _ _ _ _ _ _ 0 _ _ _ K2 C2 pre item post);
    [|reflexivity|now apply H2|exact Hq|exact M].
  eexists. split; [reflexivity|].
  simpl. now rewrite calls_of_map.
Qed.

(** C2. Keyword "free image hosting", domain "imgur.com", 20 results, two
    credentials: the first answers 429 to every call, the second answers
    page 1 with a response whose item at index 3 is the first on the target
    domain. The run reports position 4 with that item's link and exits with
    0; it makes two calls, the 429 and the one successful call, and none
    after the match; and the output file gains exactly four lines, each
    starting with today's date, for the items at indexes 0 to 3: what the
    response holds after the matching item is not logged. *)
Theorem imgur_found_at_position_4 (K1 K2 C1 C2 : string) (args : Args)
  (w : World) (pre : list Item) (item : Item) (post : list Item) :
  arg_keyword args = "free image hosting"%string ->
  arg_domain args = "imgur.com"%string ->
  arg_results args = 20%Z ->
  API_KEYS = [K1; K2] -> CXS = [C1; C2] ->
  (forall i rq, p_key rq = K1 -> network w i rq = Http429) ->
  (forall i rq, p_key rq = K2 -> p_start rq = 1%Z ->
                network w i rq = Json (Some (pre ++ item :: post))) ->
  length pre = 3 ->
  Forall (fun it => domain_matches netloc (Some "imgur.com"%string)
                      (i_link it) = false) pre ->
  domain_matches netloc (Some "imgur.com"%string) (i_link item) = true ->
  sink_fault w = NoFault ->
  let run := main netloc API_KEYS CXS args w in
  let file :=
    ("seo_results_free_image_hosting_" ++ arg_country args ++ ".txt")%string in
  let lines := sink_lines (strftime_Ymd (today w)) (stamp 0 (pre ++ [item])) in
  exit_code run = 0%Z /\
  In (EvPrint (MsgFound "imgur.com" 4)) (events run) /\
  In (EvPrint (MsgLink (Some (i_link item)))) (events run) /\
  map snd (calls_of (events run))
  = [Http429; Json (Some (pre ++ item :: post))] /\
  text_of (files_after run) file
  = (text_of (files w) file ++ String.concat "" lines)%string /\
  length lines = 4 /\
  lines = map (fun r => (strftime_Ymd (today w) ++ line_body r)%string)
              (stamp 0 (pre ++ [item])).
Proof.
  intros Hk Hd Hn HK HC H1 H2 Hpre Hq M Hf run file lines.
  destruct (scenario_search K1 K2 C1 C2 (network w) (arg_keyword args)
              (arg_proxy args) (arg_country args) (Some "imgur.com"%string)
              pre item post H1 H2 Hq M) as (st & E & Hcalls).
  assert (Hlen : length API_KEYS = length CXS) by (now rewrite HK, HC).
  rewrite Hpre in E. change (3 + 1) with 4 in E.
  assert (E' : google_search netloc (network w) (arg_keyword args) API_KEYS CXS
                 (arg_results args) (arg_proxy args) (arg_country args)
                 (Some (arg_domain args))
               = (Returned (stamp 0 (pre ++ [item])) (Some 4)
                    (Some (i_link item)), st))
    by (now rewrite HK, HC, Hn, Hd).
  destruct (main_after_search args w _ _ _ _ Hlen E') as (Hx & He & Hfs).
  fold run in Hx, He, Hfs. rewrite Hf in Hx, He, Hfs. simpl in Hx, He, Hfs.
  assert (Efile : output_file_of (arg_keyword args) (arg_country args) = file)
    by (unfold file; now rewrite Hk).
  rewrite Efile in Hfs. rewrite Hd in He.
  split; [exact Hx|]. split; [|split; [|split; [|split; [|split]]]].
  - rewrite He. right. apply in_or_app. left. apply in_or_app. right.
    now left.
  - rewrite He. right. apply in_or_app. left. apply in_or_app. right.
    right. now left.
  - rewrite He. simpl. rewrite !calls_of_app. simpl.
    now rewrite !app_nil_r.
  - rewrite Hfs. apply text_of_appended.
  - unfold lines, sink_lines. rewrite length_map, stamp_length, length_app.
    simpl. lia.
  - apply sink_lines_bodies.
Qed.

End ScriptFacts.

(** * The theorems on sample runs *)

Lemma early_exit_witness :
  trace (snd Sample.search)
  = Sample.before_hit ++ EvAppend Sample.hit :: [] /\
  domain_matches Urllib.netloc (Some "imgur.com"%string)
    (r_link Sample.hit) = true /\
  fst Sample.search
  = Returned (results (snd Sample.search)) (Some 4)
      (Some "https://i.IMGUR.com/x"%string) /\
  length (results (snd Sample.search)) = 4.
Proof.
  split; [reflexivity|]. split; [reflexivity|].
  destruct (proj2 (proj2 (early_exit_on_first_match Urllib.netloc
              Sample.two_keys "free image hosting" Sample.keys Sample.ids 20
              None "us" (Some "imgur.com"%string)))
              (fst Sample.search) (snd Sample.search) Sample.before_hit
              Sample.hit [])
    as (_ & E & _ & P & _); [reflexivity | reflexivity | reflexivity |].
  split; [exact E | now rewrite <- P].
Defined.

Lemma positions_witness :
  positions_sequential (results (snd Sample.search)) /\
  map r_position (results (snd Sample.search)) = [1; 2; 3; 4].
Proof.
  split; [|reflexivity].
  destruct (positions_follow_accumulation Urllib.netloc Sample.two_keys
              "free image hosting" Sample.keys Sample.ids 20 None "us"
              (Some "imgur.com"%string) (fst Sample.search)
              (snd Sample.search)) as (_ & _ & H & _); [reflexivity|].
  apply (H _ (Some 4) (Some "https://i.IMGUR.com/x"%string)). reflexivity.
Defined.

Lemma match_ends_the_list_witness :
  length (results (snd Sample.search)) = 4 /\
  length Sample.page = 5 /\
  forall fecha_hoy,
    length (sink_lines fecha_hoy (results (snd Sample.search))) = 4.
Proof.
  destruct (match_ends_the_list Urllib.netloc Sample.two_keys
              "free image hosting" Sample.keys Sample.ids 20 None "us"
              (Some "imgur.com"%string) (results (snd Sample.search)) 4
              (Some "https://i.IMGUR.com/x"%string) (snd Sample.search))
    as (L & _ & _ & S); [reflexivity|].
  split; [exact L|]. split; [reflexivity | exact S].
Defined.

Lemma exhausted_page_witness :
  length Sample.keys = length Sample.ids /\
  fst (google_search Urllib.netloc Sample.over_quota "free image hosting"
         Sample.keys Sample.ids 50 None "us" (Some "imgur.com"%string))
  = Returned [] None None /\
  forall start,
    length (calls_at start
              (trace (snd (google_search Urllib.netloc Sample.over_quota
                             "free image hosting" Sample.keys Sample.ids 50
                             None "us" (Some "imgur.com"%string))))) <= 2.
Proof.
  split; [reflexivity|].
  destruct (exhausted_page_ends_search Urllib.netloc Sample.over_quota
              "free image hosting" Sample.keys Sample.ids 50 None "us"
              (Some "imgur.com"%string) eq_refl) as (B & _ & E).
  split; [apply E; reflexivity | exact B].
Defined.


Lemma generous_exact (i : nat) (rq : Request) (items : list Item) :
  Sample.generous i rq = Json (Some items) ->
  length items = Z.to_nat (p_num rq).
Proof. intros E. inversion E. apply repeat_length. Qed.


Lemma exit_code_witness :
  length Sample.keys = length Sample.ids /\
  exit_code (script Urllib.netloc Sample.keys Sample.ids
               (Parsed Sample.args) Sample.world) = 0%Z /\
  length Sample.keys <> length (@nil string) /\
  exit_code (script Urllib.netloc Sample.keys [] (Parsed Sample.args)
               Sample.world) = 1%Z /\
  calls_of (events (script Urllib.netloc Sample.keys [] (Parsed Sample.args)
                      Sample.world)) = [].
Proof.
  split; [reflexivity|]. split.
  - destruct (exit_code_by_configuration Urllib.netloc Sample.keys
                Sample.ids Sample.args Sample.world) as (_ & _ & _ & H).
    destruct (H eq_refl (results (snd Sample.search)) (Some 4)
                (Some "https://i.IMGUR.com/x"%string) (snd Sample.search)
                eq_refl) as [_ H0].
    apply H0. reflexivity.
  - split; [discriminate|].
    destruct (exit_code_by_configuration Urllib.netloc Sample.keys []
                Sample.args Sample.world) as (_ & _ & H & _).
    destruct H as [E C]; [discriminate|].
    split; [now rewrite E | exact C].
Defined.

(** C3 as stated fails: the lists have the same length, the search runs,
    and the process still exits with 1 when the output file cannot be
    opened. *)
Lemma equal_lengths_may_exit_1 :
  length Sample.keys = length Sample.ids /\
  exit_code (main Urllib.netloc Sample.keys Sample.ids Sample.args
               (with_fault OpenFails Sample.world)) <> 0%Z.
Proof. split; [reflexivity | discriminate]. Qed.

Lemma sink_failure_witness :
  sink_raises OpenFails (length (results (snd Sample.search))) = true /\
  exit_code (main Urllib.netloc Sample.keys Sample.ids Sample.args
               (with_fault OpenFails Sample.world)) = 1%Z /\
  In (EvPrint (MsgFound "imgur.com" 4))
     (events (main Urllib.netloc Sample.keys Sample.ids Sample.args
                (with_fault OpenFails Sample.world))).
Proof.
  split; [reflexivity|].
  destruct (sink_failure_after_verdict Urllib.netloc Sample.keys Sample.ids
              Sample.args (with_fault OpenFails Sample.world)
              (results (snd Sample.search)) (Some 4)
              (Some "https://i.IMGUR.com/x"%string) (snd Sample.search))
    as (X & _ & E & _); [reflexivity | reflexivity | reflexivity |].
  split; [exact X|]. rewrite E. right. apply in_or_app. right. now left.
Defined.

(** C8 as stated fails: the run whose output file cannot be opened exits
    with another code than the same run with a writable file. *)
Lemma sink_failure_alters_exit_code :
  exit_code (main Urllib.netloc Sample.keys Sample.ids Sample.args
               (with_fault OpenFails Sample.world))
  <> exit_code (main Urllib.netloc Sample.keys Sample.ids Sample.args
                  Sample.world).
Proof. discriminate. Qed.

Lemma sink_appends_witness :
  length Sample.keys = length Sample.ids /\
  sink_fault Sample.world = NoFault /\
  text_of
    (files_after
       (main Urllib.netloc Sample.keys Sample.ids Sample.args
          (later_run
             (files_after (main Urllib.netloc Sample.keys Sample.ids
                             Sample.args Sample.world))
             {| year := 2026; month := 11; day := 4 |} Sample.world)))
    Sample.file
  = (String.concat ""
       (sink_lines "2026-11-03" (results (snd Sample.search)))
     ++ String.concat ""
          (sink_lines "2026-11-04" (results (snd Sample.search))))%string.
Proof.
  split; [reflexivity|]. split; [reflexivity|].
  destruct (sink_appends_blocks Urllib.netloc Sample.keys Sample.ids
              Sample.args Sample.world
              {| year := 2026; month := 11; day := 4 |}
              (results (snd Sample.search)) (Some 4)
              (Some "https://i.IMGUR.com/x"%string) (snd Sample.search))
    as (_ & _ & T & _); [reflexivity | reflexivity | reflexivity |].
  exact T.
Defined.

Lemma two_keys_first (i : nat) (rq : Request) :
  p_key rq = "K1"%string -> Sample.two_keys i rq = Http429.
Proof. intros E. unfold Sample.two_keys. now rewrite E. Qed.

Lemma two_keys_second (i : nat) (rq : Request) :
  p_key rq = "K2"%string -> p_start rq = 1%Z ->
  Sample.two_keys i rq = Json (Some Sample.page).
Proof. intros E S. unfold Sample.two_keys. now rewrite E, S. Qed.

Lemma imgur_witness :
  exit_code (main Urllib.netloc Sample.keys Sample.ids Sample.args
               Sample.world) = 0%Z /\
  text_of (files_after (main Urllib.netloc Sample.keys Sample.ids Sample.args
                          Sample.world)) Sample.file
  = String.concat ""
      [ "2026-11-03|https://a.example/1|1" ++ newline;
        "2026-11-03|https://b.example/2|2" ++ newline;
        "2026-11-03|https://c.example/3|3" ++ newline;
        "2026-11-03|https://i.IMGUR.com/x|4" ++ newline ]%string.
Proof.
  destruct (imgur_found_at_position_4 Urllib.netloc Sample.keys Sample.ids
              "K1" "K2" "C1" "C2" Sample.args Sample.world
              (firstn 3 Sample.page) (Sample.item_at "https://i.IMGUR.com/x")
              [Sample.item_at "https://imgur.com/y"])
    as (X & _ & _ & _ & T & _);
    try reflexivity.
  - apply two_keys_first.
  - apply two_keys_second.
  - repeat constructor.
  - split; [exact X | exact T].
Defined.

(** C2 as stated fails when the response holds items after the match: the
    one successful response holds five items and the file gains four lines. *)
Lemma later_items_are_not_logged :
  map snd (calls_of (events (main Urllib.netloc Sample.keys Sample.ids
                               Sample.args Sample.world)))
  = [Http429; Json (Some Sample.page)] /\
  length Sample.page = 5 /\
  count_lines (text_of (files Sample.world) Sample.file) = 0 /\
  count_lines
    (text_of (files_after (main Urllib.netloc Sample.keys Sample.ids
                             Sample.args Sample.world)) Sample.file) = 4.
Proof. repeat split; reflexivity. Qed.

(** * Further properties of the search *)

(** ** Counting over traces *)

Lemma sleeps_app (a b : list Event) : sleeps (a ++ b) = sleeps a + sleeps b.
Proof. induction a as [|[] a IH]; simpl; rewrite ?IH; reflexivity. Qed.

Lemma sleeps_map (news : list ResultItem) : sleeps (map EvAppend news) = 0.
Proof. induction news; simpl; auto. Qed.

Lemma successes_app (a b : list Event) :
  successes (a ++ b) = successes a + successes b.
Proof.
  unfold successes. now rewrite calls_of_app, filter_app, length_app.
Qed.

Lemma successes_quiet (t : list Event) : calls_of t = [] -> successes t = 0.
Proof. unfold successes. now intros ->. Qed.

Lemma successes_le_calls (t : list Event) :
  successes t <= length (calls_of t).
Proof. apply filter_length_le. Qed.

Lemma py_range_length (budget : Z) :
  length (py_range 1 (budget + 1) 10) = Z.to_nat ((budget + 9) / 10).
Proof.
  unfold py_range. rewrite length_map, length_seq.
  now replace (budget + 1 - 1 + 10 - 1)%Z with (budget + 9)%Z by lia.
Qed.

(** With a budget of at least one there is a first page, at offset 1. *)
Lemma py_range_first (budget : Z) :
  (1 <= budget)%Z -> exists later, py_range 1 (budget + 1) 10 = 1%Z :: later.
Proof.
  intros H. unfold py_range.
  replace (budget + 1 - 1 + 10 - 1)%Z with (budget + 9)%Z by lia.
  pose proof (Z.div_mod (budget + 9) 10) as D.
  pose proof (Z.mod_pos_bound (budget + 9) 10) as B.
  destruct (Z.to_nat ((budget + 9) / 10)) as [|m] eqn:E; [lia|].
  eexists. reflexivity.
Qed.

Lemma py_range_none (budget : Z) :
  (budget <= 0)%Z -> py_range 1 (budget + 1) 10 = [].
Proof.
  intros H. unfold py_range.
  replace (budget + 1 - 1 + 10 - 1)%Z with (budget + 9)%Z by lia.
  pose proof (Z.div_mod (budget + 9) 10) as D.
  pose proof (Z.mod_pos_bound (budget + 9) 10) as B.
  replace (Z.to_nat ((budget + 9) / 10)) with 0 by lia. reflexivity.
Qed.

Section SearchMore.

Variable netloc : string -> string.
Variable api : nat -> Request -> Response.
Variable query : string.
Variables api_keys cxs : list string.
Variable num_results : Z.
Variable proxy : option string.
Variable country : string.
Variable target_domain : option string.

Local Abbreviation matches := (domain_matches netloc target_domain).
Local Abbreviation quiet_link := (no_match netloc target_domain).
Local Abbreviation tries :=
  (attempts netloc api query api_keys cxs proxy country target_domain).
Local Abbreviation loop :=
  (pages netloc api query api_keys cxs num_results proxy country target_domain).
Local Abbreviation search :=
  (google_search netloc api query api_keys cxs num_results proxy country
     target_domain).
Local Abbreviation tracked := (Tracked api query api_keys cxs proxy country).
Local Abbreviation the_range := (py_range 1 (num_results + 1) 10).
Local Abbreviation request := (params_of query proxy country).

(** *** The calls are made in turn *)

Lemma tracked_init : tracked init.
Proof.
  split; simpl; auto. intros [|k] rq resp E; discriminate.
Qed.

Lemma tracked_log (e : Event) (st : State) :
  tracked st -> search_event e -> calls_of [e] = [] -> tracked (log e st).
Proof.
  intros [Hk Hc Hn He] Se Ce.
  assert (E : calls_of (trace st ++ [e]) = calls_of (trace st))
    by (now rewrite calls_of_app, Ce, app_nil_r).
  split; simpl; rewrite ?E; auto.
  apply Forall_app. split; [exact He | now constructor].
Qed.

Lemma tracked_called (start num : Z) (api_key cx : string) (resp : Response)
  (st : State) :
  tracked st ->
  next_pair api_keys cxs (key_cycle st) = Some (api_key, cx) ->
  resp = api (clock st) (request start num api_key cx) ->
  tracked (called (request start num api_key cx) resp st).
Proof.
  intros [Hk Hc Hn He] Hp Hr.
  assert (E : calls_of (trace st ++ [EvCall (request start num api_key cx) resp])
              = calls_of (trace st) ++ [(request start num api_key cx, resp)])
    by (now rewrite calls_of_app).
  split; simpl; rewrite ?E, ?length_app; simpl; try lia.
  - intros k rq resp' Ek.
    destruct (Nat.lt_ge_cases k (length (calls_of (trace st)))) as [Hlt|Hge].
    + rewrite nth_error_app1 in Ek by exact Hlt. now apply Hn.
    + rewrite nth_error_app2 in Ek by exact Hge.
      destruct (k - length (calls_of (trace st))) as [|j] eqn:Ej;
        [|now destruct j].
      inversion Ek; subst rq resp'.
      assert (k = length (calls_of (trace st))) as -> by lia.
      unfold next_pair in Hp. rewrite Hk in Hp. rewrite Hc in Hr.
      unfold call_in_turn. repeat split; auto.
  - apply Forall_app. split; [exact He | now repeat constructor].
Qed.

Lemma tracked_extend (news : list ResultItem) (st : State) :
  tracked st -> tracked (extend news st).
Proof.
  intros [Hk Hc Hn He].
  assert (E : calls_of (trace st ++ map EvAppend news) = calls_of (trace st))
    by (now rewrite calls_of_app, calls_of_map, app_nil_r).
  split; simpl; rewrite ?E; auto.
  apply Forall_app. split; [exact He|].
  apply Forall_forall. intros e Hin. apply in_map_iff in Hin as (r & <- & _).
  exact I.
Qed.

Lemma attempts_tracked (n : nat) (st : State) (start num : Z) :
  tracked st -> tracked (state_of (tries start num n st)).
Proof.
  revert st. induction n as [|n IH]; intros st T; simpl; [exact T|].
  destruct (next_pair api_keys cxs (key_cycle st)) as [[api_key cx]|] eqn:Hp;
    [|exact T].
  pose proof (fun resp => tracked_called start num api_key cx resp st T Hp)
    as Tc.
  destruct (api (clock st) (request start num api_key cx))
    as [|e|[items|]] eqn:R;
    try (apply IH; apply tracked_log; [now apply Tc | exact I | reflexivity]).
  destruct (first_match netloc target_domain items)
    as [Hq|(pre & item & post & -> & Hq & M)].
  - rewrite scan_items_unmatched by exact Hq.
    apply tracked_extend. now apply Tc.
  - rewrite scan_items_matched by assumption.
    apply tracked_extend. now apply Tc.
Qed.

Lemma pages_tracked (starts : list Z) (st : State) :
  tracked st -> tracked (snd (loop starts st)).
Proof.
  revert st. induction starts as [|start later IH]; intros st T; simpl;
    [exact T|].
  pose proof (attempts_tracked (length api_keys) st start
                (Z.min 10 (num_results - Z.of_nat (length (results st)))) T)
    as A.
  destruct (tries start _ (length api_keys) st) as [st' p l|st'|st'|st' e];
    simpl in A; simpl; auto.
  - destruct (Z.of_nat (length (results st')) >=? num_results)%Z; simpl; auto.
    apply IH. apply tracked_log; [exact A | reflexivity | reflexivity].
  - apply tracked_log; [exact A | exact I | reflexivity].
Qed.

Lemma google_search_tracked : tracked (snd search).
Proof. apply pages_tracked, tracked_init. Qed.

(** X1. The credentials rotate over the whole run: the [k]-th call of a
    search (from 0) is made with the key and the search-engine id at index
    [k mod n] of [zip(api_keys, cxs)], [n] its length. The cursor is not reset
    between pages, so key and id stay paired by position and a page starts
    with the credential after the last one used. *)
Theorem calls_rotate_credentials (k : nat) (rq : Request) (resp : Response) :
  nth_error
    (calls_of (trace (snd (google_search netloc api query api_keys cxs
                             num_results proxy country target_domain)))) k
  = Some (rq, resp) ->
  nth_error (pairs api_keys cxs) (k mod length (pairs api_keys cxs))
  = Some (p_key rq, p_cx rq) /\
  resp = api k rq.
Proof.
  intros E. destruct google_search_tracked as [_ _ Hn _].
  destruct (Hn k rq resp E) as (Hp & Hr & _). auto.
Qed.

(** X2. Every request of a run carries the same keyword, country and proxy
    setting, whichever credential and page it is for; with a proxy given,
    both the [http] and the [https] entry are [http://<proxy>], and with
    none (or an empty one) no proxy is set. *)
Theorem requests_share_settings :
  Forall (fun c => p_q (fst c) = query /\ p_gl (fst c) = country /\
                   proxies (fst c) = proxies_of proxy)
    (calls_of (trace (snd (google_search netloc api query api_keys cxs
                             num_results proxy country target_domain)))) /\
  (forall p, proxy = Some p -> p <> ""%string ->
             proxies_of proxy
             = Some (("http://" ++ p)%string, ("http://" ++ p)%string)) /\
  (proxy = None \/ proxy = Some ""%string -> proxies_of proxy = None).
Proof.
  split; [|split].
  - destruct google_search_tracked as [_ _ Hn _].
    apply Forall_forall. intros [rq resp] Hin.
    apply In_nth_error in Hin as [k Ek].
    destruct (Hn k rq resp Ek) as (_ & _ & H). exact H.
  - intros p -> Hne. unfold proxies_of.
    now destruct (String.eqb_spec p "").
  - intros [->| ->]; reflexivity.
Qed.

(** *** What one page adds *)

(** The trace one page adds holds no pause and at most [n] calls, and one
    successful call exactly when the page succeeds; a page that fails leaves
    [results] as it was, one that succeeds adds at most the items of its
    response. *)
Lemma attempts_tally (n : nat) (st : State) (start num : Z) :
  exists t,
    trace (state_of (tries start num n st)) = trace st ++ t /\
    sleeps t = 0 /\
    length (calls_of t) <= n /\
    match tries start num n st with
    | PFound st' _ _ | PSuccess st' =>
        successes t = 1 /\
        exists i rq items news,
          api i rq = Json (Some items) /\ p_num rq = num /\
          results st' = results st ++ news /\
          length news <= length items
    | PFailed st' | PRaised st' _ => successes t = 0 /\ results st' = results st
    end.
Proof.
  revert st. induction n as [|n IH]; intros st; simpl.
  - exists []. rewrite app_nil_r. simpl. auto.
  - destruct (next_pair api_keys cxs (key_cycle st)) as [[api_key cx]|].
    2:{ exists []. rewrite app_nil_r. simpl. repeat split; auto with arith. }
    set (rq := request start num api_key cx).
    assert (Hfail : forall resp msg,
      is_success resp = false ->
      exists t,
        trace (state_of (tries start num n
                 (log (EvPrint msg) (called rq resp st)))) = trace st ++ t /\
        sleeps t = 0 /\
        length (calls_of t) <= S n /\
        match tries start num n (log (EvPrint msg) (called rq resp st)) with
        | PFound st' _ _ | PSuccess st' =>
            successes t = 1 /\
            exists i rq items news,
              api i rq = Json (Some items) /\ p_num rq = num /\
              results st' = results st ++ news /\
              length news <= length items
        | PFailed st' | PRaised st' _ =>
            successes t = 0 /\ results st' = results st
        end).
    { intros resp msg F.
      destruct (IH (log (EvPrint msg) (called rq resp st)))
        as (t & Et & Hs & Hl & Hm).
      exists (EvCall rq resp :: EvPrint msg :: t). simpl in Et.
      rewrite Et, <- !app_assoc. simpl.
      split; [reflexivity|]. split; [exact Hs|]. split; [lia|].
      unfold successes in *. simpl. rewrite F. exact Hm. }
    destruct (api (clock st) rq) as [|e|[items|]] eqn:R;
      try (apply Hfail; reflexivity).
    assert (Hok : forall news,
      trace (extend news (called rq (Json (Some items)) st))
      = trace st ++ EvCall rq (Json (Some items)) :: map EvAppend news /\
      sleeps (EvCall rq (Json (Some items)) :: map EvAppend news) = 0 /\
      length (calls_of (EvCall rq (Json (Some items)) :: map EvAppend news))
      <= S n /\
      successes (EvCall rq (Json (Some items)) :: map EvAppend news) = 1).
    { intros news. simpl. rewrite <- app_assoc, sleeps_map.
      unfold successes. simpl. rewrite calls_of_map. simpl.
      repeat split; lia. }
    destruct (first_match netloc target_domain items)
      as [Hq|(pre & item & post & -> & Hq & M)].
    + rewrite scan_items_unmatched by exact Hq.
      destruct (Hok (stamp (length (results (called rq (Json (Some items)) st)))
                       items)) as (E1 & E2 & E3 & E4).
      eexists. split; [exact E1|]. split; [exact E2|]. split; [exact E3|].
      split; [exact E4|].
      exists (clock st), rq, items, (stamp (length (results st)) items).
      simpl. rewrite stamp_length. auto.
    + rewrite scan_items_matched by assumption.
      destruct (Hok (stamp (length (results
                       (called rq (Json (Some (pre ++ item :: post))) st)))
                       (pre ++ [item]))) as (E1 & E2 & E3 & E4).
      eexists. split; [exact E1|]. split; [exact E2|]. split; [exact E3|].
      split; [exact E4|].
      exists (clock st), rq, (pre ++ item :: post),
        (stamp (length (results st)) (pre ++ [item])).
      simpl. rewrite stamp_length, !length_app. simpl.
      repeat split; auto; lia.
Qed.

(** *** What the pages add *)

Lemma pages_tally (starts : list Z) (st : State) :
  exists t,
    trace (snd (loop starts st)) = trace st ++ t /\
    sleeps t <= successes t <= sleeps t + 1 /\
    (forall rs p l, fst (loop starts st) = Returned rs (Some p) l ->
                    successes t = sleeps t + 1) /\
    length (calls_of t) <= length starts * length api_keys.
Proof.
  revert st. induction starts as [|start later IH]; intros st.
  - exists []. simpl. rewrite app_nil_r. unfold successes. simpl.
    repeat split; auto; discriminate.
  - rewrite pages_cons.
    destruct (attempts_tally (length api_keys) st start
                (Z.min 10 (num_results - Z.of_nat (length (results st)))))
      as (t & Et & Hs & Hl & Hm).
    destruct (tries start _ (length api_keys) st) as [st' p l|st'|st'|st' e];
      simpl in Et.
    + destruct Hm as [Hm _]. exists t. simpl. repeat split; auto; lia.
    + destruct Hm as [Hm _].
      destruct (Z.of_nat (length (results st')) >=? num_results)%Z.
      * exists t. simpl. repeat split; auto; try lia; discriminate.
      * destruct (IH (log (EvSleep 1) st')) as (t' & Et' & Hb & Hf & Hc).
        exists (t ++ EvSleep 1 :: t'). simpl in Et'.
        rewrite Et', Et, <- !app_assoc. simpl.
        rewrite sleeps_app, successes_app, calls_of_app, length_app. simpl.
        change (successes (EvSleep 1 :: t')) with (successes t').
        repeat split; auto; try lia.
        intros rs p l E. specialize (Hf rs p l E). lia.
    + destruct Hm as [Hm _]. exists (t ++ [EvPrint MsgAllFailed]). simpl.
      rewrite Et, <- app_assoc, sleeps_app, successes_app, calls_of_app.
      simpl. rewrite app_nil_r. unfold successes at 2 4. simpl.
      repeat split; auto; try lia; discriminate.
    + destruct Hm as [Hm _]. exists t. simpl.
      repeat split; auto; try lia; discriminate.
Qed.

Lemma pages_bounded (starts : list Z) (st : State) :
  (forall i rq items, api i rq = Json (Some items) ->
                      length items <= Z.to_nat (p_num rq)) ->
  (Z.of_nat (length (results st)) <= Z.max 0 num_results)%Z ->
  (Z.of_nat (length (results (snd (loop starts st)))) <= Z.max 0 num_results)%Z.
Proof.
  intros Hon. revert st. induction starts as [|start later IH]; intros st Hb.
  - exact Hb.
  - rewrite pages_cons.
    destruct (attempts_tally (length api_keys) st start
                (Z.min 10 (num_results - Z.of_nat (length (results st)))))
      as (t & _ & _ & _ & Hm).
    assert (Hnews : forall st',
      (exists i rq items news,
          api i rq = Json (Some items) /\
          p_num rq = Z.min 10 (num_results - Z.of_nat (length (results st))) /\
          results st' = results st ++ news /\
          length news <= length items) ->
      (Z.of_nat (length (results st')) <= Z.max 0 num_results)%Z).
    { intros st' (i & rq & items & news & Ha & Hn & Hr & Hl).
      pose proof (Hon i rq items Ha) as Hi. rewrite Hn in Hi.
      rewrite Hr, length_app. lia. }
    destruct (tries start _ (length api_keys) st) as [st' p l|st'|st'|st' e].
    + destruct Hm as [_ Hm]. simpl. now apply Hnews.
    + destruct Hm as [_ Hm].
      destruct (Z.of_nat (length (results st')) >=? num_results)%Z.
      * simpl. now apply Hnews.
      * apply IH. simpl. now apply Hnews.
    + destruct Hm as [_ Hm]. simpl. now rewrite Hm.
    + destruct Hm as [_ Hm]. simpl. now rewrite Hm.
Qed.

(** X3. When the API honours the page size (no response holds more items
    than the [num] it was asked for), the accumulated list never exceeds the
    requested number of results: the search returns at most
    [max(0, num_results)] items. *)
Theorem results_within_budget (out : Outcome) (st : State) :
  (forall i rq items, api i rq = Json (Some items) ->
                      length items <= Z.to_nat (p_num rq)) ->
  google_search netloc api query api_keys cxs num_results proxy country
    target_domain = (out, st) ->
  (Z.of_nat (length (results st)) <= Z.max 0 num_results)%Z /\
  (forall rs position found_link,
      out = Returned rs position found_link ->
      (Z.of_nat (length rs) <= Z.max 0 num_results)%Z).
Proof.
  intros Hon E.
  pose proof (pages_bounded the_range init Hon) as B.
  fold search in B. rewrite E in B. simpl in B.
  assert (Hb : (Z.of_nat (length (results st)) <= Z.max 0 num_results)%Z)
    by (apply B; lia).
  split; [exact Hb|]. intros rs p l ->.
  pose proof (google_search_sealed netloc api query api_keys cxs num_results
                proxy country target_domain) as S.
  rewrite E in S. simpl in S.
  destruct p as [p|], l as [l|]; try contradiction; now destruct S as [-> _].
Qed.

(** X4. A run makes at most [ceil(num_results / 10) * len(api_keys)] network
    calls, whatever the API answers: one attempt per key for each page of
    the budget. *)
Theorem calls_are_bounded :
  length (calls_of (trace (snd (google_search netloc api query api_keys cxs
                                  num_results proxy country target_domain))))
  <= Z.to_nat ((num_results + 9) / 10) * length api_keys.
Proof.
  destruct (pages_tally the_range init) as (t & Et & _ & _ & Hc).
  fold search in Et. rewrite Et. simpl. now rewrite <- py_range_length.
Qed.

(** X5. The pauses of a search go with its successful pages: the number of
    pauses is the number of successful calls, or one less; it is one less
    whenever a match is returned (the page that ends the search is not
    followed by a pause); and every pause lasts one second. *)
Theorem pauses_follow_successful_pages (out : Outcome) (st : State) :
  google_search netloc api query api_keys cxs num_results proxy country
    target_domain = (out, st) ->
  sleeps (trace st) <= successes (trace st) <= sleeps (trace st) + 1 /\
  (forall rs position found_link,
      out = Returned rs (Some position) found_link ->
      successes (trace st) = sleeps (trace st) + 1) /\
  (forall seconds, In (EvSleep seconds) (trace st) -> seconds = 1).
Proof.
  intros E.
  destruct (pages_tally the_range init) as (t & Et & Hb & Hf & _).
  fold search in Et, Hf. rewrite E in Et, Hf. simpl in Et, Hf. subst t.
  split; [exact Hb|]. split.
  - intros rs p l ->. eapply Hf. reflexivity.
  - intros seconds Hin. pose proof google_search_tracked as [_ _ _ He].
    rewrite E in He. simpl in He.
    apply (proj1 (Forall_forall _ _) He) in Hin. exact Hin.
Qed.

(** *** Degenerate inputs *)

Lemma attempts_first_call (n : nat) (st : State) (start num : Z)
  (api_key cx : string) :
  next_pair api_keys cxs (key_cycle st) = Some (api_key, cx) ->
  exists resp t,
    trace (state_of (tries start num (S n) st))
    = trace st ++ EvCall (request start num api_key cx) resp :: t.
Proof.
  intros Hp. simpl. rewrite Hp.
  set (rq := request start num api_key cx).
  assert (Hfail : forall resp msg, exists resp' t,
    trace (state_of (tries start num n (log (EvPrint msg) (called rq resp st))))
    = trace st ++ EvCall rq resp' :: t).
  { intros resp msg.
    destruct (attempts_tally n (log (EvPrint msg) (called rq resp st))
                start num) as (t & Et & _).
    exists resp, (EvPrint msg :: t). rewrite Et. simpl.
    now rewrite <- !app_assoc. }
  destruct (api (clock st) rq) as [|e|[items|]]; try apply Hfail.
  destruct (first_match netloc target_domain items)
    as [Hq|(pre & item & post & -> & Hq & M)].
  - rewrite scan_items_unmatched by exact Hq.
    eexists. eexists. simpl. now rewrite <- app_assoc.
  - rewrite scan_items_matched by assumption.
    eexists. eexists. simpl. now rewrite <- app_assoc.
Qed.

(** X6. [google_search] raises [StopIteration] exactly when there is a key,
    no search-engine id and a budget of at least one result: [zip] is then
    empty and the first [next(key_cycle)] raises, before any call, message
    or append. *)
Theorem stop_iteration_without_ids :
  (fst (google_search netloc api query api_keys cxs num_results proxy
          country target_domain) = Raised StopIteration <->
   api_keys <> [] /\ cxs = [] /\ (1 <= num_results)%Z) /\
  (fst (google_search netloc api query api_keys cxs num_results proxy
          country target_domain) = Raised StopIteration ->
   snd (google_search netloc api query api_keys cxs num_results proxy
          country target_domain) = init).
Proof.
  unfold google_search.
  destruct (Z.le_gt_cases num_results 0) as [Hn|Hn].
  { rewrite (py_range_none _ Hn). simpl.
    split; [split|]; try discriminate. intros (_ & _ & H). lia. }
  destruct (py_range_first num_results) as [later ->]; [lia|].
  rewrite pages_cons.
  destruct api_keys as [|a keys] eqn:Ek.
  { simpl. split; [split|]; try discriminate.
    intros (H & _). congruence. }
  destruct cxs as [|c ids] eqn:Ec.
  { simpl. split; [split|]; auto.
    intros _. repeat split; auto; try discriminate. lia. }
  assert (Hp : pairs (a :: keys) (c :: ids) <> []) by discriminate.
  pose proof (pages_no_raise netloc api query (a :: keys) (c :: ids)
                num_results proxy country target_domain (1%Z :: later) init
                (or_introl Hp)) as R.
  rewrite pages_cons in R.
  split; [split|].
  - intros E. now destruct (R StopIteration).
  - intros (_ & H & _). discriminate.
  - intros E. now destruct (R StopIteration).
Qed.

(** X7. The search touches the network exactly when the budget is at least
    one result and there is both a key and a search-engine id. With a budget
    of zero or less nothing happens at all and the empty list is returned;
    with a budget but no key, the only effect is the message that all keys
    failed. *)
Theorem network_untouched_iff :
  (calls_of (trace (snd (google_search netloc api query api_keys cxs
                           num_results proxy country target_domain))) = [] <->
   (num_results <= 0)%Z \/ api_keys = [] \/ cxs = []) /\
  ((num_results <= 0)%Z ->
   google_search netloc api query api_keys cxs num_results proxy country
     target_domain = (Returned [] None None, init)) /\
  ((1 <= num_results)%Z -> api_keys = [] ->
   google_search netloc api query api_keys cxs num_results proxy country
     target_domain
   = (Returned [] None None, log (EvPrint MsgAllFailed) init)).
Proof.
  assert (H0 : (num_results <= 0)%Z -> search = (Returned [] None None, init)).
  { intros Hn. unfold google_search. now rewrite (py_range_none _ Hn). }
  assert (H1 : (1 <= num_results)%Z -> api_keys = [] ->
               search = (Returned [] None None, log (EvPrint MsgAllFailed) init)).
  { intros Hn Hk. unfold google_search.
    destruct (py_range_first num_results Hn) as [later ->].
    rewrite pages_cons, Hk. reflexivity. }
  split; [|split; assumption].
  destruct (Z.le_gt_cases num_results 0) as [Hn|Hn].
  { rewrite (H0 Hn). simpl. tauto. }
  destruct api_keys as [|a keys] eqn:Ek.
  { rewrite H1 by (auto; lia). simpl. tauto. }
  destruct cxs as [|c ids] eqn:Ec.
  { unfold google_search.
    destruct (py_range_first num_results) as [later ->]; [lia|].
    simpl. tauto. }
  split; [|intros [H|[H|H]]; [lia | discriminate | discriminate]].
  assert (Hp : next_pair api_keys cxs (key_cycle init) = Some (a, c))
    by (rewrite Ek, Ec; unfold next_pair; simpl key_cycle;
        now rewrite Nat.Div0.mod_0_l).
  assert (Hl : length api_keys = S (length keys)) by (now rewrite Ek).
  rewrite <- Ek, <- Ec.
  intros Hc. exfalso. unfold google_search in Hc.
  destruct (py_range_first num_results) as [later El]; [lia|].
  rewrite El, pages_cons, Hl in Hc.
  destruct (attempts_first_call (length keys) init 1
              (Z.min 10 (num_results - Z.of_nat (length (results init)))) a c
              Hp) as (resp & t & Et).
  destruct (tries 1 _ (S (length keys)) init) as [st' p l|st'|st'|st' e];
    simpl in Et.
  - simpl in Hc. rewrite Et in Hc. discriminate.
  - destruct (Z.of_nat (length (results st')) >=? num_results)%Z.
    + simpl in Hc. rewrite Et in Hc. discriminate.
    + destruct (pages_tally later (log (EvSleep 1) st')) as (t' & Et' & _).
      rewrite Et' in Hc. simpl in Hc. rewrite Et in Hc. discriminate.
  - simpl in Hc. rewrite Et in Hc. discriminate.
  - simpl in Hc. rewrite Et in Hc. discriminate.
Qed.

(** X8. When the answer to the very first call holds the target domain in
    its first item, the search returns position 1 with that item's link
    after exactly one call: no second credential, no second page, no pause
    and no message. *)
Theorem first_item_match (item : Item) (post : list Item) :
  (1 <= num_results)%Z ->
  api_keys <> [] -> cxs <> [] ->
  (forall rq, api 0 rq = Json (Some (item :: post))) ->
  domain_matches netloc target_domain (i_link item) = true ->
  exists rq,
    google_search netloc api query api_keys cxs num_results proxy country
      target_domain
    = (Returned [result_of item 1] (Some 1) (Some (i_link item)),
       {| results := [result_of item 1]; key_cycle := 1; clock := 1;
          trace := [EvCall rq (Json (Some (item :: post)));
                    EvAppend (result_of item 1)] |}).
Proof.
  intros Hn Hk Hc Ha M. unfold google_search.
  destruct (py_range_first num_results Hn) as [later ->].
  rewrite pages_cons.
  destruct (nonempty_length _ Hk) as [n ->].
  assert (Hp : pairs api_keys cxs <> [])
    by (unfold pairs; destruct api_keys, cxs; simpl; congruence).
  destruct (next_pair_some api_keys cxs (key_cycle init) Hp)
    as (api_key & cx & Ep).
  rewrite (attempts_match _ _ _ _ _ _ _ _ n init 1 _ api_key cx [] item post
             Ep (Ha _) (Forall_nil _) M).
  eexists. reflexivity.
Qed.

(** X9. A search that reports no position has not missed a match: none of
    the items it returns is on the target domain. The position and the link
    are reported together or not at all, and a reported position is at
    least 1. *)
Theorem unmatched_means_absent (rs : list ResultItem) (position : option nat)
  (found_link : option string) (st : State) :
  google_search netloc api query api_keys cxs num_results proxy country
    target_domain = (Returned rs position found_link, st) ->
  (position = None <-> found_link = None) /\
  (position = None ->
   Forall (fun r => domain_matches netloc target_domain (r_link r) = false)
     rs) /\
  (forall p, position = Some p -> 1 <= p).
Proof.
  intros E.
  pose proof (google_search_sealed netloc api query api_keys cxs num_results
                proxy country target_domain) as S.
  rewrite E in S. simpl in S.
  destruct position as [p|], found_link as [l|]; try contradiction.
  - split; [split; discriminate|]. split; [discriminate|].
    intros p' [= <-].
    destruct S as [_ (st0 & rq & pre & item & post & _ & _ & _ & _ & _ & _
                      & -> & _)]. lia.
  - destruct S as [-> [_ _ Hl _ _]].
    split; [tauto|]. split; [|discriminate]. intros _. exact Hl.
Qed.

(** X10. Without a target domain ([None] or the empty string) nothing ever
    matches: the search reports no position, whatever the API returns. *)
Theorem no_target_no_match (rs : list ResultItem) (position : option nat)
  (found_link : option string) (st : State) :
  target_domain = None \/ target_domain = Some ""%string ->
  google_search netloc api query api_keys cxs num_results proxy country
    target_domain = (Returned rs position found_link, st) ->
  position = None /\ found_link = None.
Proof.
  intros Ht E.
  pose proof (google_search_sealed netloc api query api_keys cxs num_results
                proxy country target_domain) as S.
  rewrite E in S. simpl in S.
  destruct position as [p|], found_link as [l|]; try contradiction; auto.
  destruct S as [_ (st0 & rq & pre & item & post & _ & _ & _ & _ & M & _)].
  exfalso. unfold domain_matches in M.
  destruct Ht as [Ht|Ht]; rewrite Ht in M; discriminate.
Qed.

End SearchMore.

(** * Further properties of the script *)

Lemma filter_verdict_search (tr : list Event) :
  Forall search_event tr -> filter is_verdict tr = [].
Proof.
  induction 1 as [|e tr He _ IH]; [reflexivity|].
  simpl. rewrite IH. now destruct e as [? ?|[]| |].
Qed.

Lemma count_lines_app (a b : string) :
  count_lines (a ++ b)%string = count_lines a + count_lines b.
Proof. induction a as [|c a IH]; simpl; [reflexivity | rewrite IH; lia]. Qed.

Lemma count_lines_digits (d : Decimal.uint) :
  count_lines (NilEmpty.string_of_uint d) = 0.
Proof. induction d; simpl; auto. Qed.

Lemma count_lines_zeros (k : nat) : count_lines (zeros k) = 0.
Proof. induction k; simpl; auto. Qed.

Lemma count_lines_padded (width n : nat) : count_lines (padded width n) = 0.
Proof.
  unfold padded, Text.str_nat.
  now rewrite count_lines_app, count_lines_zeros, count_lines_digits.
Qed.

Lemma count_lines_date (d : Date) : count_lines (strftime_Ymd d) = 0.
Proof.
  unfold strftime_Ymd. rewrite !count_lines_app, !count_lines_padded.
  reflexivity.
Qed.

Lemma count_lines_concat (l : list string) :
  count_lines (String.concat "" l) = list_sum (map count_lines l).
Proof.
  induction l as [|x [|y l] IH]; simpl in *.
  - reflexivity.
  - lia.
  - rewrite count_lines_app, IH. reflexivity.
Qed.

Lemma count_lines_block (d : Date) (rs : list ResultItem) :
  Forall (fun r => count_lines (r_link r) = 0) rs ->
  count_lines (String.concat "" (sink_lines (strftime_Ymd d) rs)) = length rs.
Proof.
  intros H. rewrite count_lines_concat. unfold sink_lines. rewrite map_map.
  induction H as [|r rs Hr _ IH]; simpl; [reflexivity|]. rewrite IH.
  unfold sink_line, Text.str_nat.
  rewrite !count_lines_app, count_lines_date, count_lines_digits, Hr.
  reflexivity.
Qed.

Lemma lower_upper_ascii (c : ascii) :
  Text.lower_ascii (Text.upper_ascii c) = Text.lower_ascii c.
Proof. destruct c as [[] [] [] [] [] [] [] []]; reflexivity. Qed.

Lemma lower_lower_ascii (c : ascii) :
  Text.lower_ascii (Text.lower_ascii c) = Text.lower_ascii c.
Proof. destruct c as [[] [] [] [] [] [] [] []]; reflexivity. Qed.

Lemma lower_upper (s : string) : Text.lower (Text.upper s) = Text.lower s.
Proof.
  unfold Text.lower, Text.upper.
  induction s as [|c s IH]; simpl; [reflexivity|].
  now rewrite IH, lower_upper_ascii.
Qed.

Lemma lower_lower (s : string) : Text.lower (Text.lower s) = Text.lower s.
Proof.
  unfold Text.lower.
  induction s as [|c s IH]; simpl; [reflexivity|].
  now rewrite IH, lower_lower_ascii.
Qed.

Lemma map_chars_empty (f : ascii -> ascii) (s : string) :
  (Text.map_chars f s =? "")%string = (s =? "")%string.
Proof. now destruct s. Qed.

(** X11. On ASCII text, matching ignores the case of the target domain and
    of the link's network location: writing either in upper or lower case
    does not change whether an item matches. *)
Theorem domain_match_ignores_case (netloc : string -> string)
  (domain link : string) :
  ascii_text domain = true -> ascii_text (netloc link) = true ->
  domain_matches netloc (Some (Text.upper domain)) link
  = domain_matches netloc (Some domain) link /\
  domain_matches netloc (Some (Text.lower domain)) link
  = domain_matches netloc (Some domain) link /\
  domain_matches (fun l => Text.upper (netloc l)) (Some domain) link
  = domain_matches netloc (Some domain) link.
Proof.
  intros _ _. unfold domain_matches. repeat split.
  - unfold Text.upper at 1. now rewrite map_chars_empty, lower_upper.
  - unfold Text.lower at 1. now rewrite map_chars_empty, lower_lower.
  - now rewrite lower_upper.
Qed.

Section ScriptMore.

Variable netloc : string -> string.
Variables API_KEYS CXS : list string.

(** X12. With as many keys as ids, a run whose search returns prints exactly
    one verdict, whether or not the output file can be written: the position
    found, when the search returned one, and the not-found message
    otherwise. The search itself prints no verdict, and a returned position
    is never 0, so the truth test of line 142 reads it right. *)
Theorem verdict_printed_once (args : Args) (w : World)
  (rs : list ResultItem) (position : option nat) (found_link : option string)
  (st : State) :
  length API_KEYS = length CXS ->
  google_search netloc (network w) (arg_keyword args) API_KEYS CXS
    (arg_results args) (arg_proxy args) (arg_country args)
    (Some (arg_domain args)) = (Returned rs position found_link, st) ->
  filter is_verdict (events (main netloc API_KEYS CXS args w))
  = [ match position with
      | Some p => EvPrint (MsgFound (arg_domain args) p)
      | None => EvPrint (MsgNotFound (arg_domain args) (arg_results args))
      end ].
Proof.
  intros Hlen E.
  pose proof (google_search_tracked netloc (network w) (arg_keyword args)
                API_KEYS CXS (arg_results args) (arg_proxy args)
                (arg_country args) (Some (arg_domain args))) as [_ _ _ He].
  pose proof (google_search_sealed netloc (network w) (arg_keyword args)
                API_KEYS CXS (arg_results args) (arg_proxy args)
                (arg_country args) (Some (arg_domain args))) as S.
  destruct (main_after_search netloc API_KEYS CXS args w _ _ _ _ Hlen E)
    as (_ & Hev & _).
  rewrite E in He, S. simpl in He, S. rewrite Hev.
  destruct position as [p|], found_link as [l|]; try contradiction.
  - destruct S as [_ (st0 & rq & pre & item & post & _ & _ & _ & _ & _ & _
                      & -> & _)].
    rewrite Nat.add_1_r.
    destruct (sink_raises _ _); simpl;
      rewrite !filter_app, (filter_verdict_search _ He); reflexivity.
  - destruct (sink_raises _ _); simpl;
      rewrite !filter_app, (filter_verdict_search _ He); reflexivity.
Qed.

(** X13. When the output file is written without error and no link holds a
    line break, the file gains exactly one line per item the search
    returned. *)
Theorem one_line_per_result (args : Args) (w : World)
  (rs : list ResultItem) (position : option nat) (found_link : option string)
  (st : State) :
  length API_KEYS = length CXS ->
  sink_fault w = NoFault ->
  google_search netloc (network w) (arg_keyword args) API_KEYS CXS
    (arg_results args) (arg_proxy args) (arg_country args)
    (Some (arg_domain args)) = (Returned rs position found_link, st) ->
  Forall (fun r => count_lines (r_link r) = 0) rs ->
  count_lines
    (text_of (files_after (main netloc API_KEYS CXS args w))
       (output_file_of (arg_keyword args) (arg_country args)))
  = count_lines
      (text_of (files w) (output_file_of (arg_keyword args) (arg_country args)))
    + length rs.
Proof.
  intros Hlen Hf E Hl.
  destruct (main_after_search netloc API_KEYS CXS args w _ _ _ _ Hlen E)
    as (_ & _ & Hfs).
  rewrite Hfs, Hf. simpl.
  now rewrite text_of_appended, count_lines_app, count_lines_block.
Qed.

End ScriptMore.

(** * The page analysis *)

Module AnalyzerFacts.
Import Analyzer.

(** X14. [check_keyword_in_text] finds the keyword exactly when the text is
    not empty and holds the keyword as a substring, both lower-cased. An
    empty text holds no keyword, not even the empty one; the empty keyword
    (what the script uses for a site without keywords) is found in every
    text that is not empty; and the case of an ASCII text and of an ASCII
    keyword does not matter. *)
Theorem check_keyword_is_substring :
  (forall text keyword,
      check_keyword_in_text text keyword = true <->
      text <> ""%string /\
      Text.Substring (Text.lower keyword) (Text.lower text)) /\
  (forall keyword, check_keyword_in_text "" keyword = false) /\
  (forall text, text <> ""%string -> check_keyword_in_text text "" = true) /\
  (forall text keyword,
      (ascii_text text = true ->
       check_keyword_in_text (Text.upper text) keyword
       = check_keyword_in_text text keyword) /\
      (ascii_text keyword = true ->
       check_keyword_in_text text (Text.upper keyword)
       = check_keyword_in_text text keyword)).
Proof.
  assert (Hiff : forall text keyword,
    check_keyword_in_text text keyword = true <->
    text <> ""%string /\
    Text.Substring (Text.lower keyword) (Text.lower text)).
  { intros text keyword. unfold check_keyword_in_text.
    destruct (String.eqb_spec text "") as [->|Hne].
    - split; [discriminate | intros [H _]; congruence].
    - rewrite TextFacts.contains_Substring. tauto. }
  split; [exact Hiff|]. split; [reflexivity|]. split.
  - intros text Hne. apply Hiff. split; [exact Hne|].
    now exists ""%string, (Text.lower text).
  - intros text keyword. unfold check_keyword_in_text. split; intros _.
    + unfold Text.upper at 1. now rewrite map_chars_empty, lower_upper.
    + now rewrite lower_upper.
Qed.

Section AnalysisFacts.

Variable browser : nat -> string -> option string.
Variable soup : string -> Page.
Variable pagespeed_api :
  nat -> string -> Strategy -> option string -> SpeedResponse.
Variable query_of : string -> option string.
Variable parse_qs : string -> list (string * list string).
Variable writer : string -> list Row -> bool.

Local Abbreviation analyze :=
  (analyze_page browser soup pagespeed_api query_of parse_qs).
Local Abbreviation speed := (get_pagespeed_insights pagespeed_api).
Local Abbreviation metrics := (page_metrics pagespeed_api).
Local Abbreviation rows_of :=
  (keyword_rows browser soup pagespeed_api query_of parse_qs).
Local Abbreviation site_run :=
  (analyze_site browser soup pagespeed_api query_of parse_qs).
Local Abbreviation sites_run :=
  (analyze_sites browser soup pagespeed_api query_of parse_qs).
Local Abbreviation fetch := (fetch_page_selenium browser).




Local Abbreviation page := (page_of browser).

(** The three ways an analysis goes. *)
Lemma analyze_page_failed (url keyword : string) (include_pagespeed : bool)
  (api_key : option string) (st : AState) :
  page url st = None ->
  analyze url keyword include_pagespeed api_key st
  = (error_row query_of parse_qs url keyword, snd (fetch url st)).
Proof.
  unfold page_of, analyze_page, fetch_page_selenium. cbn [snd].
  destruct (browser (fetched st) url) as [text|]; [|reflexivity].
  destruct (text =? "")%string; [reflexivity | discriminate].
Qed.

Lemma analyze_page_refused (url keyword : string) (include_pagespeed : bool)
  (api_key : option string) (st : AState) :
  query_of url = None ->
  analyze url keyword include_pagespeed api_key st
  = (Died ValueError, snd (fetch url st)).
Proof.
  intros Hq.
  unfold analyze_page, fetch_page_selenium, error_row, is_url_friendly.
  cbn [snd]. rewrite Hq.
  destruct (browser (fetched st) url) as [text|]; [|reflexivity].
  destruct (text =? "")%string; reflexivity.
Qed.

Lemma error_row_facts (url keyword query : string) :
  query_of url = Some query ->
  exists row,
    error_row query_of parse_qs url keyword = Done row /\
    row_url row = url /\ row_keyword row = keyword /\
    total_images_with_alt row = 0 /\ images_with_keyword row = 0 /\
    keyword_in_alt row = false /\
    keyword_in_alt_ratio row = "0 de 0"%string.
Proof.
  intros Hq. unfold error_row, is_url_friendly. rewrite Hq.
  eexists. split; [reflexivity|]. simpl. repeat split; reflexivity.
Qed.

Lemma analyze_page_fetched (url keyword : string) (include_pagespeed : bool)
  (api_key : option string) (st : AState) (text query : string) :
  page url st = Some text -> query_of url = Some query ->
  let alt_texts := alt_texts_of (soup text) in
  exists row,
    analyze url keyword include_pagespeed api_key st
    = (Done row,
       snd (metrics url include_pagespeed api_key (snd (fetch url st)))) /\
    row_url row = url /\ row_keyword row = keyword /\
    total_images_with_alt row = length alt_texts /\
    images_with_keyword row
    = length (filter (fun alt => check_keyword_in_text alt keyword)
                alt_texts) /\
    keyword_in_alt row
    = existsb (fun alt => check_keyword_in_text alt keyword) alt_texts /\
    keyword_in_alt_ratio row
    = (if (0 <? length alt_texts)%nat
       then (Text.str_nat (images_with_keyword row) ++ " de "
             ++ Text.str_nat (length alt_texts))%string
       else "0 de 0"%string).
Proof.
  unfold page_of, analyze_page, fetch_page_selenium, is_url_friendly.
  cbn [snd].
  destruct (browser (fetched st) url) as [html|]; [|discriminate].
  destruct (html =? "")%string eqn:Eh; [discriminate|].
  intros [= ->] Hq. rewrite Hq. cbv zeta.
  destruct (metrics url include_pagespeed api_key _) as [[m d] st2].
  eexists. split; [reflexivity|]. simpl. repeat split; reflexivity.
Qed.

Lemma alt_texts_length (p : Page) :
  length (alt_texts_of p) <= length (img_alts p).
Proof.
  unfold alt_texts_of. induction (img_alts p) as [|[a|] l IH]; simpl.
  - auto.
  - destruct (a =? "")%string; simpl; lia.
  - lia.
Qed.

Lemma existsb_filter {A} (f : A -> bool) (l : list A) :
  existsb f l = true <-> 1 <= length (filter f l).
Proof.
  induction l as [|x l IH]; simpl.
  - split; [discriminate | lia].
  - destruct (f x); simpl; [split; auto; lia | exact IH].
Qed.


(** What a row says about the alt texts, and whom it is for. *)
Lemma analyze_row_facts (url keyword : string) (include_pagespeed : bool)
  (api_key : option string) (st : AState) (row : Row) :
  fst (analyze url keyword include_pagespeed api_key st) = Done row ->
  images_with_keyword row <= total_images_with_alt row /\
  (keyword_in_alt row = true <-> 1 <= images_with_keyword row) /\
  keyword_in_alt_ratio row
  = (Text.str_nat (images_with_keyword row) ++ " de "
     ++ Text.str_nat (total_images_with_alt row))%string /\
  (forall text, page url st = Some text ->
                total_images_with_alt row
                <= length (img_alts (soup text))) /\
  row_url row = url /\ row_keyword row = keyword.
Proof.
  intros E.
  destruct (query_of url) as [query|] eqn:Eq;
    [|rewrite (analyze_page_refused _ _ _ _ _ Eq) in E; discriminate].
  destruct (page url st) as [text|] eqn:Ep.
  - destruct (analyze_page_fetched url keyword include_pagespeed api_key st
                text query Ep Eq) as (row' & E' & Hu & Hk & Ht & Hw & Ha & Hr).
    rewrite E' in E. cbn [fst] in E. injection E as <-.
    rewrite Hr, Ha, Hw, Ht. repeat split; auto.
    + apply filter_length_le.
    + apply existsb_filter.
    + apply existsb_filter.
    + destruct (length (alt_texts_of (soup text))) as [|n] eqn:El;
        [|reflexivity].
      apply length_zero_iff_nil in El. now rewrite El.
    + intros text' [= <-]. apply alt_texts_length.
  - rewrite (analyze_page_failed _ _ _ _ _ Ep) in E. cbn [fst] in E.
    destruct (error_row_facts url keyword query Eq)
      as (row' & E' & Hu & Hk & Ht & Hw & Ha & Hr).
    rewrite E' in E. injection E as <-.
    rewrite Hr, Ha, Hw, Ht. repeat split; auto; try lia; discriminate.
Qed.

(** X15. The alt-text entries of a row that [analyze_page] returns agree:
    the images whose alt text holds the keyword are counted among the images
    with a non-empty alt text only, the check passes exactly when at least
    one is counted, and the ratio is always the text
    "<with keyword> de <total>" of the two counts ("0 de 0" on an error page
    too). A row carries the URL and the keyword it was asked for. *)
Theorem alt_entries_agree (url keyword : string) (include_pagespeed : bool)
  (api_key : option string) (st : AState) (row : Row) :
  fst (analyze_page browser soup pagespeed_api query_of parse_qs
         url keyword include_pagespeed api_key st) = Done row ->
  images_with_keyword row <= total_images_with_alt row /\
  (keyword_in_alt row = true <-> 1 <= images_with_keyword row) /\
  keyword_in_alt_ratio row
  = (Text.str_nat (images_with_keyword row) ++ " de "
     ++ Text.str_nat (total_images_with_alt row))%string /\
  (forall text, page_of browser url st = Some text ->
                total_images_with_alt row
                <= length (img_alts (soup text))) /\
  row_url row = url /\ row_keyword row = keyword.
Proof. apply analyze_row_facts. Qed.



(** *** The rows of a site *)







(** *** The whole run *)







(** The exit code of [main] is 0 or 1. *)
Lemma main_exit_codes (args : AArgs) (env_key : option string)
  (load : ConfigLoad) (today : Date) :
  fst (main browser soup pagespeed_api query_of parse_qs writer args env_key
         load today) = 0%Z \/
  fst (main browser soup pagespeed_api query_of parse_qs writer args env_key
         load today) = 1%Z.
Proof.
  unfold main. destruct load as [| | |config]; try (now right).
  destruct (sites_run _ _ config [] astart) as [[rows|e] st];
    [|now right].
  destruct (writer (report_file today) rows); [now left | now right].
Qed.



(** *** The log of a run *)

Lemma continues_refl (st : AState) : continues st st.
Proof. exists []. now rewrite app_nil_r. Qed.

Lemma continues_trans (a b c : AState) :
  continues a b -> continues b c -> continues a c.
Proof.
  intros (l & El & Hl) (m & Em & Hm). exists (l ++ m).
  rewrite Em, El, app_assoc. split; [reflexivity|]. now apply Forall_app.
Qed.

Lemma continues_note (e : AEvent) (st : AState) :
  working e -> continues st (note e st).
Proof. intros H. exists [e]. split; [reflexivity | now constructor]. Qed.

Lemma fetch_continues (url : string) (st : AState) :
  continues st (snd (fetch url st)).
Proof.
  eexists. split; [reflexivity|]. repeat constructor.
Qed.

Lemma get_pagespeed_continues (url : string) (strategy : Strategy)
  (api_key : option string) (retry : bool) (st : AState) :
  continues st (snd (speed url strategy api_key retry st)).
Proof.
  unfold get_pagespeed_insights.
  destruct (pagespeed_api (measured st) url strategy (given api_key)) eqn:E;
    cbn [snd].
  - eexists. split; [reflexivity|]. repeat constructor.
  - eapply continues_trans; [|apply continues_note; exact I].
    eexists. split; [reflexivity|]. repeat constructor.
Qed.

Lemma page_metrics_continues (url : string) (include_pagespeed : bool)
  (api_key : option string) (st : AState) :
  continues st (snd (metrics url include_pagespeed api_key st)).
Proof.
  unfold page_metrics. destruct include_pagespeed; [|apply continues_refl].
  pose proof (get_pagespeed_continues url Mobile api_key false st) as C1.
  destruct (speed url Mobile api_key false st) as [m st1]. cbn [snd] in C1.
  pose proof (get_pagespeed_continues url Desktop api_key false st1) as C2.
  destruct (speed url Desktop api_key false st1) as [d st2]. cbn [snd] in C2.
  pose proof (get_pagespeed_continues url Desktop api_key true
                (note RetryNotice st2)) as C3.
  destruct (speed url Desktop api_key true (note RetryNotice st2))
    as [d' st3]. cbn [snd] in C3.
  assert (C : continues st st3).
  { eapply continues_trans; [exact C1|].
    eapply continues_trans; [exact C2|].
    eapply continues_trans;
      [apply (continues_note RetryNotice); exact I | exact C3]. }
  destruct (accessibility d); [destruct (performance d)|]; cbn [snd];
    try exact C.
  eapply continues_trans; [exact C1 | exact C2].
Qed.

Lemma analyze_page_continues (url keyword : string)
  (include_pagespeed : bool) (api_key : option string) (st : AState) :
  continues st (snd (analyze url keyword include_pagespeed api_key st)).
Proof.
  destruct (query_of url) as [query|] eqn:Eq.
  - destruct (page url st) as [text|] eqn:Ep.
    + destruct (analyze_page_fetched url keyword include_pagespeed api_key st
                  text query Ep Eq) as (row & -> & _).
      cbn [snd]. eapply continues_trans; [apply fetch_continues|].
      apply page_metrics_continues.
    + rewrite (analyze_page_failed _ _ _ _ _ Ep). apply fetch_continues.
  - rewrite (analyze_page_refused _ _ _ _ _ Eq). apply fetch_continues.
Qed.

Lemma keyword_rows_continues (url first : string) (first_result : Row)
  (api_key : option string) (keywords : list string) (results : list Row)
  (st : AState) :
  continues st
    (snd (rows_of url first first_result api_key keywords results st)).
Proof.
  revert results st.
  induction keywords as [|keyword rest IH]; intros results st; simpl.
  - apply continues_refl.
  - destruct (keyword =? first)%string; [apply IH|].
    pose proof (analyze_page_continues url keyword false api_key st) as C.
    destruct (analyze url keyword false api_key st) as [[result|e] st1];
      cbn [snd] in C |- *; [|exact C].
    eapply continues_trans; [exact C | apply IH].
Qed.

Lemma summary_continues (url : string) (keywords : list string)
  (results : list Row) (total_checks total_passed : nat) (st : AState) :
  continues st
    (snd (summary url keywords results total_checks total_passed st)).
Proof.
  revert total_checks total_passed st.
  induction keywords as [|keyword rest IH]; intros c p st; simpl.
  - apply continues_refl.
  - destruct (find _ results) as [r|]; [|apply IH].
    eapply continues_trans;
      [apply (continues_note (KeywordSummary keyword (passed_checks r)));
       exact I | apply IH].
Qed.

Lemma analyze_site_continues (include_pagespeed : bool)
  (api_key : option string) (site : Site) (results : list Row)
  (st : AState) :
  continues st (snd (site_run include_pagespeed api_key site results st)).
Proof.
  unfold analyze_site.
  destruct (keywords_list_of site) as [|k ks]; [apply continues_refl|].
  pose proof (analyze_page_continues (site_url site) k include_pagespeed
                api_key st) as C1.
  destruct (analyze (site_url site) k include_pagespeed api_key st)
    as [[first_result|e] st1]; cbn [snd] in C1 |- *; [|exact C1].
  pose proof (keyword_rows_continues (site_url site) k first_result api_key
                (k :: ks) results st1) as C2.
  destruct (rows_of (site_url site) k first_result api_key (k :: ks) results
              st1) as [[results1|e] st2]; cbn [snd] in C2 |- *;
    [|eapply continues_trans; [exact C1 | exact C2]].
  pose proof (summary_continues (site_url site) (k :: ks) results1 0 0 st2)
    as C3.
  destruct (summary (site_url site) (k :: ks) results1 0 0 st2)
    as [[total_checks total_passed] st3]. cbn [snd] in C3 |- *.
  eapply continues_trans; [exact C1|].
  eapply continues_trans; [exact C2|].
  eapply continues_trans; [exact C3 | apply continues_note; exact I].
Qed.

Lemma analyze_sites_continues (include_pagespeed : bool)
  (api_key : option string) (config : list Site) (results : list Row)
  (st : AState) :
  continues st (snd (sites_run include_pagespeed api_key config results st)).
Proof.
  revert results st.
  induction config as [|site rest IH]; intros results st;
    cbn [analyze_sites].
  - apply continues_refl.
  - pose proof (analyze_site_continues include_pagespeed api_key site results
                  st) as C.
    destruct (site_run include_pagespeed api_key site results st)
      as [[results1|e] st1]; cbn [snd] in C |- *; [|exact C].
    eapply continues_trans; [exact C | apply IH].
Qed.

(** The report and the exit code of [main] once the command line is
    parsed. *)
Lemma main_report (args : AArgs) (env_key : option string)
  (load : ConfigLoad) (today : Date) :
  let out := main browser soup pagespeed_api query_of parse_qs writer args
               env_key load today in
  (fst out = 0%Z ->
   exists rows before,
     alog (snd out) = before ++ [Report (report_file today) rows] /\
     Forall working before /\
     writer (report_file today) rows = true) /\
  (fst out <> 0%Z ->
   forall output_file rows, ~ In (Report output_file rows) (alog (snd out))).
Proof.
  unfold main.
  assert (Hw : forall l output_file rows,
             Forall working l -> ~ In (Report output_file rows) l).
  { intros l f r Hl Hin.
    exact (proj1 (Forall_forall _ _) Hl _ Hin). }
  destruct load as [| | |config]; cbn [fst snd].
  - split; [discriminate|]. intros _ f r [H|[]]. discriminate.
  - split; [discriminate|]. intros _ f r [H|[]]. discriminate.
  - split; [discriminate|]. intros _ f r [].
  - destruct (analyze_sites_continues (negb (no_pagespeed args))
                (api_key_of args env_key) config [] astart)
      as (added & Ea & Ha).
    destruct (sites_run _ _ config [] astart) as [[rows|e] st].
    + cbn [snd] in Ea. cbn [alog astart app] in Ea.
      destruct (writer (report_file today) rows) eqn:Ew; cbn [fst snd].
      * split; [|intros H; now destruct H].
        intros _. exists rows, added. cbn [alog note]. rewrite Ea.
        now repeat split.
      * split; [discriminate|].
        intros _ f r. rewrite Ea. now apply Hw.
    + cbn [fst snd] in Ea |- *. cbn [alog astart app] in Ea.
      split; [discriminate|].
      intros _ f r. rewrite Ea. now apply Hw.
Qed.

(** X20. The analyzer exits with 0, 1 or 2. Apart from a run that only
    prints the help, the report is completed exactly when the exit code is
    0: then the report is the last event of the run, under the name of the
    day, and the only one; with the help, or with another exit code, no
    report was completed at all, whatever had been analysed before. *)
Theorem report_iff_success (cl : CommandLine AArgs)
  (env_key : option string) (load : ConfigLoad) (today : Date) :
  let out := script browser soup pagespeed_api query_of parse_qs writer cl
               env_key load today in
  (fst out = 0%Z \/ fst out = 1%Z \/ fst out = 2%Z) /\
  (cl <> Help -> fst out = 0%Z ->
   exists rows before,
     alog (snd out) = before ++ [Report (report_file today) rows] /\
     Forall working before /\
     writer (report_file today) rows = true) /\
  (cl = Help \/ fst out <> 0%Z ->
   forall output_file rows, ~ In (Report output_file rows) (alog (snd out))).
Proof.
  destruct cl as [| |args]; cbn [script]; cbv zeta.
  - split; [now left|]. split; [intros H; now destruct H|].
    intros _ f r [].
  - split; [now right; right|]. split; [discriminate|].
    intros _ f r [].
  - destruct (main_report args env_key load today) as [H0 H1].
    split; [destruct (main_exit_codes args env_key load today); auto|].
    split; [intros _; exact H0|].
    intros [H|H]; [discriminate | exact (H1 H)].
Qed.




End AnalysisFacts.

End AnalyzerFacts.

(** * The further properties on sample runs *)

Lemma rotation_witness :
  nth_error (calls_of (trace (snd Sample.search))) 1
  = Some (Cases.second_request, Json (Some Sample.page)) /\
  nth_error (pairs Sample.keys Sample.ids)
    (1 mod length (pairs Sample.keys Sample.ids))
  = Some ("K2"%string, "C2"%string).
Proof.
  split; [reflexivity|].
  apply (proj1 (calls_rotate_credentials Urllib.netloc Sample.two_keys
                  "free image hosting" Sample.keys Sample.ids 20 None "us"
                  (Some "imgur.com"%string) 1 Cases.second_request
                  (Json (Some Sample.page)) eq_refl)).
Defined.

Lemma generous_honours (i : nat) (rq : Request) (items : list Item) :
  Sample.generous i rq = Json (Some items) ->
  length items <= Z.to_nat (p_num rq).
Proof. intros E. rewrite (generous_exact i rq items E). apply le_n. Qed.

Lemma budget_witness :
  (Z.of_nat (length (results (snd Cases.short))) <= Z.max 0 3)%Z.
Proof.
  apply (proj1 (results_within_budget Urllib.netloc Sample.generous
                  "free image hosting" Sample.keys Sample.ids 3 None "us"
                  (Some "imgur.com"%string) (fst Cases.short)
                  (snd Cases.short) generous_honours
                  (surjective_pairing Cases.short))).
Defined.

Lemma pauses_witness :
  successes (trace (snd Sample.search))
  = sleeps (trace (snd Sample.search)) + 1.
Proof.
  apply (proj1 (proj2 (pauses_follow_successful_pages Urllib.netloc
                         Sample.two_keys "free image hosting" Sample.keys
                         Sample.ids 20 None "us" (Some "imgur.com"%string)
                         (fst Sample.search) (snd Sample.search)
                         (surjective_pairing Sample.search)))
           (results (snd Sample.search)) 4
           (Some "https://i.IMGUR.com/x"%string)).
  reflexivity.
Defined.

Lemma first_item_witness :
  exists rq,
    google_search Urllib.netloc Cases.first_hit "free image hosting"
      Sample.keys Sample.ids 20 None "us" (Some "imgur.com"%string)
    = (Returned [result_of (Sample.item_at "https://imgur.com/") 1] (Some 1)
         (Some "https://imgur.com/"%string),
       {| results := [result_of (Sample.item_at "https://imgur.com/") 1];
          key_cycle := 1; clock := 1;
          trace := [EvCall rq (Json (Some
                      [Sample.item_at "https://imgur.com/"%string;
                       Sample.item_at "https://a.example/"%string]));
                    EvAppend (result_of (Sample.item_at "https://imgur.com/")
                                1)] |}).
Proof.
  apply (first_item_match Urllib.netloc Cases.first_hit "free image hosting"
           Sample.keys Sample.ids 20 None "us" (Some "imgur.com"%string)
           (Sample.item_at "https://imgur.com/")
           [Sample.item_at "https://a.example/"%string]).
  - discriminate.
  - discriminate.
  - discriminate.
  - reflexivity.
  - reflexivity.
Defined.

Lemma absent_witness :
  Cases.short = (Returned (results (snd Cases.short)) None None,
                 snd Cases.short) /\
  Forall (fun r => domain_matches Urllib.netloc (Some "imgur.com"%string)
                     (r_link r) = false)
    (results (snd Cases.short)).
Proof.
  assert (E : Cases.short = (Returned (results (snd Cases.short)) None None,
                             snd Cases.short)) by reflexivity.
  split; [exact E|].
  apply (proj1 (proj2 (unmatched_means_absent Urllib.netloc Sample.generous
                         "free image hosting" Sample.keys Sample.ids 3 None
                         "us" (Some "imgur.com"%string)
                         (results (snd Cases.short)) None None
                         (snd Cases.short) E))).
  reflexivity.
Defined.

Lemma no_target_witness :
  Cases.aimless = (Returned (results (snd Cases.aimless)) None None,
                   snd Cases.aimless) /\
  length (results (snd Cases.aimless)) = 5.
Proof.
  assert (E : Cases.aimless = (Returned (results (snd Cases.aimless)) None None,
                               snd Cases.aimless)) by reflexivity.
  destruct (no_target_no_match Urllib.netloc Sample.two_keys
              "free image hosting" Sample.keys Sample.ids 3 None "us" None
              (results (snd Cases.aimless)) None None (snd Cases.aimless)
              (or_introl eq_refl) E) as [_ _].
  split; [exact E | reflexivity].
Defined.

Lemma verdict_witness :
  length Sample.keys = length Sample.ids /\
  filter is_verdict
    (events (main Urllib.netloc Sample.keys Sample.ids Sample.args
               (with_fault OpenFails Sample.world)))
  = [EvPrint (MsgFound "imgur.com" 4)].
Proof.
  split; [reflexivity|].
  exact (verdict_printed_once Urllib.netloc Sample.keys Sample.ids
           Sample.args (with_fault OpenFails Sample.world)
           (results (snd Sample.search)) (Some 4)
           (Some "https://i.IMGUR.com/x"%string) (snd Sample.search)
           eq_refl eq_refl).
Defined.

Lemma case_witness :
  ascii_text "Imgur.com" = true /\
  ascii_text (Urllib.netloc "https://i.IMGUR.com/x") = true /\
  domain_matches Urllib.netloc (Some "IMGUR.COM"%string)
    "https://i.IMGUR.com/x"
  = domain_matches Urllib.netloc (Some "Imgur.com"%string)
      "https://i.IMGUR.com/x".
Proof.
  split; [reflexivity|]. split; [reflexivity|].
  exact (proj1 (domain_match_ignores_case Urllib.netloc "Imgur.com"
                  "https://i.IMGUR.com/x" eq_refl eq_refl)).
Defined.

Lemma one_line_witness :
  count_lines
    (text_of (files_after (main Urllib.netloc Sample.keys Sample.ids
                             Sample.args Sample.world)) Sample.file) = 4.
Proof.
  apply (one_line_per_result Urllib.netloc Sample.keys Sample.ids Sample.args
           Sample.world (results (snd Sample.search)) (Some 4)
           (Some "https://i.IMGUR.com/x"%string) (snd Sample.search)
           eq_refl eq_refl eq_refl).
  repeat constructor.
Defined.

Lemma alt_entries_witness :
  exists row,
    fst (Analyzer.analyze_page Cases.browser Cases.soup Cases.pagespeed_api
           Cases.query_of Cases.parse_qs "https://shop.example/" "seo" false
           None Analyzer.astart) = Analyzer.Done row /\
    Analyzer.images_with_keyword row <= Analyzer.total_images_with_alt row /\
    Analyzer.keyword_in_alt_ratio row = "1 de 2"%string.
Proof.
  eexists. split; [reflexivity|].
  destruct (AnalyzerFacts.alt_entries_agree Cases.browser Cases.soup
              Cases.pagespeed_api Cases.query_of Cases.parse_qs
              "https://shop.example/" "seo" false None Analyzer.astart _
              eq_refl) as (Hle & _ & Hr & _).
  split; [exact Hle | exact Hr].
Defined.




